(** * The native device of the Java bindings

    A shallow embedding of [platform/java/jni/nativedevice.c]: the JNI entry
    points of [NativeDevice], which resolve their Java arguments, lock the
    Java object behind the device, forward to the fitz device call, unlock,
    and turn a fitz error into a Java exception.

    The file is organised as the C file is: the handle structure, the
    lock and unlock helpers, the finalizer, then one definition per entry
    point, in source order.  What the C file only uses (the JNI runtime, the
    fitz library, the helpers of the other JNI files) is gathered in the
    [Externals] interface. *)

From Stdlib Require Import ZArith List Floats.PrimFloat.
From stdpp Require Import base option gmap strings list.

Local Open Scope string_scope.
Local Open Scope Z_scope.

(** ** Native values

    A native pointer [T *] is modelled as [option T]: [None] is [NULL], and
    [Some (NativePtr a)] the object at the (non-null) address [a]. *)

Inductive native_kind :=
  KContext | KDevice | KPath | KText | KStrokeState | KColorSpace | KShade | KImage | KPixmap.

Inductive native (k : native_kind) := NativePtr (addr : positive).
Arguments NativePtr {k} addr.

Definition fz_context := native KContext.
Definition fz_device := native KDevice.
Definition fz_path := native KPath.
Definition fz_text := native KText.
Definition fz_stroke_state := native KStrokeState.
Definition fz_colorspace := native KColorSpace.
Definition fz_shade := native KShade.
Definition fz_image := native KImage.
Definition fz_pixmap := native KPixmap.

(** The error a fitz call throws (caught by [fz_catch]). *)
Record fz_error := { fz_caught : Z; fz_caught_message : string }.

(** What a call made under [fz_try] does: it returns (an [int], 0 for the
    [void] calls) or throws. *)
Inductive fz_outcome := fz_returns (i : Z) | fz_throws (e : fz_error).

(** A local [const char *]: the declaration [const char *name;] leaves it
    indeterminate until it is assigned. *)
Inductive c_string := Indeterminate | CNull | CChars (s : string).

(** ** The Java side *)

(** A JNI reference; [None] is the null reference. *)
Definition jobject := option positive.

(** A [jfloatArray]: the null reference, or an array with its elements. *)
Definition jfloatArray := option (list float).

Inductive jclass := cls_NativeDevice.
Inductive jfieldID_long := fid_NativeDevice_nativeInfo.
Inductive jfieldID_object := fid_NativeDevice_nativeResource.

(** The exceptions of the host error channel. *)
Inductive jthrowable :=
| InvalidArgument (msg : string)
| LockFailure (msg : string)
| BackendFailure (e : fz_error).

(** The fields of a Java object that this file reads. *)
Record JavaObject := {
  instanceof_NativeDevice : bool;
  nativeInfo : Z;
  nativeResource : jobject
}.

(** ** The handle: [struct NativeDeviceInfo]

    The two function pointers are code addresses; the code behind them is
    supplied by the concrete device and is reached through [Externals].
    A handle is taken to have both set: [lockNativeDevice] and
    [unlockNativeDevice] call them without a test, and a call through a
    [NULL] function pointer is not part of this model. *)

Definition fn_ptr := positive.

Record NativeDeviceInfo := {
  lock : fn_ptr;
  unlock : fn_ptr;
  object : jobject;
  pixmap : option fz_pixmap;
  xOffset : Z;
  yOffset : Z;
  width : Z;
  height : Z
}.

Definition set_object (o : jobject) (i : NativeDeviceInfo) : NativeDeviceInfo :=
  {| lock := lock i; unlock := unlock i; object := o; pixmap := pixmap i;
     xOffset := xOffset i; yOffset := yOffset i; width := width i; height := height i |}.

(** ** The state: Java objects, native handles, pending exception *)

Record JVM := {
  objects : gmap positive JavaObject;
  heap : gmap Z NativeDeviceInfo;
  pending : option jthrowable
}.

Definition set_pending (e : option jthrowable) (s : JVM) : JVM :=
  {| objects := objects s; heap := heap s; pending := e |}.

Definition set_heap (h : gmap Z NativeDeviceInfo) (s : JVM) : JVM :=
  {| objects := objects s; heap := h; pending := pending s |}.

(** What a lock function does: its [int] result, the handle as it leaves
    it, and the exception it raised, if any.  An unlock function returns
    nothing. *)
Definition NativeDeviceLockFn := NativeDeviceInfo -> Z * NativeDeviceInfo * option jthrowable.
Definition NativeDeviceUnlockFn := NativeDeviceInfo -> NativeDeviceInfo * option jthrowable.

(** A memory fault: a JNI call on a reference that denotes no object, or a
    dereference of a handle address at which no handle is allocated. *)
Inductive fault :=
| BadReference (o : jobject)
| BadPointer (addr : Z).

Inductive result (A : Type) :=
| Done (a : A)
| Faulted (f : fault).
Arguments Done {A} a.
Arguments Faulted {A} f.

Section NativeDevice.

(** The by-value structures of fitz are only passed through. *)
Context {fz_matrix fz_rect fz_color_params : Type}.

(** ** The calls of the fitz device interface made by this file *)

Inductive backend_call :=
| fz_close_device (ctx : fz_context) (dev : fz_device)
| fz_fill_path (ctx : fz_context) (dev : fz_device) (path : fz_path) (even_odd : bool)
    (ctm : fz_matrix) (cs : option fz_colorspace) (color : list float) (alpha : float)
    (cp : fz_color_params)
| fz_stroke_path (ctx : fz_context) (dev : fz_device) (path : fz_path)
    (stroke : fz_stroke_state) (ctm : fz_matrix) (cs : option fz_colorspace)
    (color : list float) (alpha : float) (cp : fz_color_params)
| fz_clip_path (ctx : fz_context) (dev : fz_device) (path : fz_path) (even_odd : bool)
    (ctm : fz_matrix) (scissor : fz_rect)
| fz_clip_stroke_path (ctx : fz_context) (dev : fz_device) (path : fz_path)
    (stroke : fz_stroke_state) (ctm : fz_matrix) (scissor : fz_rect)
| fz_fill_text (ctx : fz_context) (dev : fz_device) (text : fz_text) (ctm : fz_matrix)
    (cs : option fz_colorspace) (color : list float) (alpha : float) (cp : fz_color_params)
| fz_stroke_text (ctx : fz_context) (dev : fz_device) (text : fz_text)
    (stroke : fz_stroke_state) (ctm : fz_matrix) (cs : option fz_colorspace)
    (color : list float) (alpha : float) (cp : fz_color_params)
| fz_clip_text (ctx : fz_context) (dev : fz_device) (text : fz_text) (ctm : fz_matrix)
    (scissor : fz_rect)
| fz_clip_stroke_text (ctx : fz_context) (dev : fz_device) (text : fz_text)
    (stroke : fz_stroke_state) (ctm : fz_matrix) (scissor : fz_rect)
| fz_ignore_text (ctx : fz_context) (dev : fz_device) (text : fz_text) (ctm : fz_matrix)
| fz_fill_shade (ctx : fz_context) (dev : fz_device) (shd : fz_shade) (ctm : fz_matrix)
    (alpha : float) (cp : fz_color_params)
| fz_fill_image (ctx : fz_context) (dev : fz_device) (img : fz_image) (ctm : fz_matrix)
    (alpha : float) (cp : fz_color_params)
| fz_fill_image_mask (ctx : fz_context) (dev : fz_device) (img : fz_image) (ctm : fz_matrix)
    (cs : option fz_colorspace) (color : list float) (alpha : float) (cp : fz_color_params)
| fz_clip_image_mask (ctx : fz_context) (dev : fz_device) (img : fz_image) (ctm : fz_matrix)
    (scissor : fz_rect)
| fz_pop_clip (ctx : fz_context) (dev : fz_device)
| fz_begin_layer (ctx : fz_context) (dev : fz_device) (name : c_string)
| fz_end_layer (ctx : fz_context) (dev : fz_device)
| fz_begin_mask (ctx : fz_context) (dev : fz_device) (rect : fz_rect) (luminosity : bool)
    (cs : option fz_colorspace) (color : list float) (cp : fz_color_params)
| fz_end_mask (ctx : fz_context) (dev : fz_device)
| fz_begin_group (ctx : fz_context) (dev : fz_device) (rect : fz_rect)
    (cs : option fz_colorspace) (isolated knockout : bool) (blendmode : Z) (alpha : float)
| fz_end_group (ctx : fz_context) (dev : fz_device)
| fz_begin_tile_id (ctx : fz_context) (dev : fz_device) (area view : fz_rect)
    (xstep ystep : float) (ctm : fz_matrix) (id : Z)
| fz_end_tile (ctx : fz_context) (dev : fz_device).

(** ** What the entry points call, in the order it happens *)

Inductive event :=
| EvLock (info : Z) (ret : Z)
| EvUnlock (info : Z)
| EvBackend (c : backend_call)
| EvReleaseStringUTFChars (jname : jobject) (name : c_string)
| EvDevice_finalize (self : jobject)
| EvDropPixmap (pix : option fz_pixmap)
| EvFree (addr : Z).

Record run (A : Type) := Run {
  outcome : result A;
  final : JVM;
  events : list event
}.
Arguments Run {A} _ _ _.
Arguments outcome {A} _.
Arguments final {A} _.
Arguments events {A} _.

(** ** The monad of the entry points: state, event log, faults *)

Definition M (A : Type) : Type := JVM -> run A.

Definition ret {A} (a : A) : M A := fun s => Run (Done a) s [].

Definition bind {A B} (m : M A) (k : A -> M B) : M B := fun s =>
  match m s with
  | Run (Done a) s1 ev1 =>
      match k a s1 with
      | Run o s2 ev2 => Run o s2 (ev1 ++ ev2)
      end
  | Run (Faulted f) s1 ev1 => Run (Faulted f) s1 ev1
  end.

Definition emit (e : event) : M unit := fun s => Run (Done tt) s [e].
Definition raise_fault {A} (f : fault) : M A := fun s => Run (Faulted f) s [].
Definition get_state : M JVM := fun s => Run (Done s) s [].
Definition update (f : JVM -> JVM) : M unit := fun s => Run (Done tt) (f s) [].

#[global] Instance M_ret : MRet M := @ret.
#[global] Instance M_bind : MBind M := fun A B k m => bind m k.

(** ** What this file uses and does not define

    The helpers of the other JNI files ([get_context], the [from_*]
    resolvers), the constants and calls of fitz, the code behind the
    function pointers of a handle, and the finalizer of the superclass.  A
    resolver returns the native object behind a Java reference, or [NULL]. *)

Class Externals := {
  get_context : option fz_context;
  from_Device : jobject -> option fz_device;
  from_Path : jobject -> option fz_path;
  from_Text : jobject -> option fz_text;
  from_StrokeState : jobject -> option fz_stroke_state;
  from_ColorSpace : jobject -> option fz_colorspace;
  from_Shade : jobject -> option fz_shade;
  from_Image : jobject -> option fz_image;
  from_Matrix : jobject -> fz_matrix;
  from_Rect : jobject -> fz_rect;
  from_ColorParams_safe : Z -> fz_color_params;
  fz_colorspace_n : fz_context -> fz_colorspace -> Z;
  FZ_MAX_COLORS : Z;
  fz_infinite_rect : fz_rect;
  (* the JNI call: the characters of the string, or NULL when it fails *)
  GetStringUTFChars : jobject -> option string;
  (* the code behind [info->lock] and [info->unlock] *)
  lock_code : fn_ptr -> NativeDeviceLockFn;
  unlock_code : fn_ptr -> NativeDeviceUnlockFn;
  (* what a fitz call does *)
  fitz : backend_call -> fz_outcome;
  (* [FUN(Device_finalize)], the finalizer of the superclass *)
  Device_finalize : jobject -> JVM -> JVM
}.

Context `{Externals}.

(** ** JNI field access *)

Definition IsInstanceOf (o : jobject) (c : jclass) : M bool := fun s =>
  match o with
  | None => Run (Done true) s []
  | Some r =>
      match objects s !! r with
      | Some ob => Run (Done (instanceof_NativeDevice ob)) s []
      | None => Run (Faulted (BadReference o)) s []
      end
  end.

Definition GetLongField (o : jobject) (f : jfieldID_long) : M Z := fun s =>
  match o ≫= (objects s !!.) with
  | Some ob => Run (Done (nativeInfo ob)) s []
  | None => Run (Faulted (BadReference o)) s []
  end.

Definition GetObjectField (o : jobject) (f : jfieldID_object) : M jobject := fun s =>
  match o ≫= (objects s !!.) with
  | Some ob => Run (Done (nativeResource ob)) s []
  | None => Run (Faulted (BadReference o)) s []
  end.

(** ** Access to a handle through its address *)

Definition load (info : Z) : M NativeDeviceInfo := fun s =>
  match heap s !! info with
  | Some i => Run (Done i) s []
  | None => Run (Faulted (BadPointer info)) s []
  end.

Definition store (info : Z) (i : NativeDeviceInfo) : M unit :=
  update (fun s => set_heap (<[info := i]> (heap s)) s).

Definition throw (e : option jthrowable) : M unit :=
  match e with
  | Some e => update (set_pending (Some e))
  | None => ret tt
  end.

(** [info->lock(env, info)] and [info->unlock(env, info)]. *)
Definition call_lock (info : Z) : M Z :=
  i ← load info;
  let '(r, i', e) := lock_code (lock i) i in
  store info i';;
  throw e;;
  emit (EvLock info r);;
  ret r.

Definition call_unlock (info : Z) : M unit :=
  i ← load info;
  let '(i', e) := unlock_code (unlock i) i in
  store info i';;
  throw e;;
  emit (EvUnlock info).

(** ** Helpers of the other JNI files *)

(** Modelled from the spec: [jni_throw_arg], which is not in this file,
    signals an [InvalidArgument] error carrying the message. *)
Definition jni_throw_arg (msg : string) : M unit :=
  update (set_pending (Some (InvalidArgument msg))).

(** Modelled from the spec: [jni_rethrow], which is not in this file,
    translates the fitz error just caught into the host error domain. *)
Definition jni_rethrow (ctx : fz_context) (e : fz_error) : M unit :=
  update (set_pending (Some (BackendFailure e))).

(** Modelled from the spec: [from_jfloatArray], which is not in this file,
    validates that the length of the color array is the expected channel
    count [n] and signals [InvalidArgument] on mismatch; it returns 0 then,
    and otherwise 1 with the [n] channel values copied into [color].  A
    null array has no length to match and is rejected in the same way. *)
Definition from_jfloatArray (n : Z) (jcolor : jfloatArray) : M (Z * list float) :=
  match jcolor with
  | Some a =>
      if decide (Z.of_nat (length a) = n) then ret (1, a)
      else jni_throw_arg "color array length does not match the channel count";;
           ret (0, [])
  | None => jni_throw_arg "color must not be null";; ret (0, [])
  end.

(** ** [fz_try] / [fz_always] / [fz_catch]

    The body is one fitz call; the [fz_always] block runs whether it
    returned or threw; then either the [fz_catch] block runs on the error,
    or control falls out of the construct with the returned value. *)

Definition call_fitz (c : backend_call) : M fz_outcome :=
  emit (EvBackend c);; ret (fitz c).

Definition fz_try {A} (body : M fz_outcome) (always : M unit)
    (catch : fz_error -> M A) (rest : Z -> M A) : M A :=
  r ← body;
  always;;
  match r with
  | fz_returns i => rest i
  | fz_throws e => catch e
  end.

(** ** [lockNativeDevice], [unlockNativeDevice]

    [lockNativeDevice] returns the handle pointer (0 for [NULL]) and the
    value it leaves in [*err]. *)

Definition lockNativeDevice (self : jobject) : M (Z * Z) :=
  isinst ← IsInstanceOf self cls_NativeDevice;
  if negb isinst then ret (0, 0) else
  info ← GetLongField self fid_NativeDevice_nativeInfo;
  if info =? 0 then ret (0, 0) else
  o ← GetObjectField self fid_NativeDevice_nativeResource;
  i ← load info;
  store info (set_object o i);;
  r ← call_lock info;
  if negb (r =? 0) then ret (0, 1) else
  ret (info, 0).

Definition unlockNativeDevice (info : Z) : M unit :=
  if negb (info =? 0) then call_unlock info else ret tt.

(** ** [NativeDevice_finalize] *)

Definition fz_drop_pixmap (ctx : fz_context) (pix : option fz_pixmap) : M unit :=
  emit (EvDropPixmap pix).

(** [fz_free] gives the handle's storage back: nothing is allocated at
    the address afterwards. *)
Definition fz_free (ctx : fz_context) (addr : Z) : M unit :=
  update (fun s => set_heap (delete addr (heap s)) s);;
  emit (EvFree addr).

Definition NativeDevice_finalize (self : jobject) : M unit :=
  match get_context with
  | None => ret tt
  | Some ctx =>
      update (Device_finalize self);;
      emit (EvDevice_finalize self);;
      ninfo ← GetLongField self fid_NativeDevice_nativeInfo;
      if negb (ninfo =? 0) then
        i ← load ninfo;
        fz_drop_pixmap ctx (pixmap i);;
        fz_free ctx ninfo
      else ret tt
  end.

(** ** The entry points of the device interface *)

Definition NativeDevice_close (self : jobject) : M unit :=
  let ctx := get_context in
  let dev := from_Device self in
  match ctx, dev with
  | Some ctx, Some dev =>
      '(info, err) ← lockNativeDevice self;
      if negb (err =? 0) then ret tt else
      fz_try (call_fitz (fz_close_device ctx dev))
        (unlockNativeDevice info)
        (jni_rethrow ctx)
        (fun _ => ret tt)
  | _, _ => ret tt
  end.

Definition NativeDevice_fillPath (self jpath : jobject) (even_odd : bool)
    (jctm jcs : jobject) (jcolor : jfloatArray) (alpha : float) (jcp : Z) : M unit :=
  let ctx := get_context in
  let dev := from_Device self in
  let path := from_Path jpath in
  let ctm := from_Matrix jctm in
  let cs := from_ColorSpace jcs in
  let cp := from_ColorParams_safe jcp in
  match ctx, dev with
  | Some ctx, Some dev =>
      match path with
      | None => jni_throw_arg "path must not be null"
      | Some path =>
          '(ok, color) ← from_jfloatArray
             (match cs with Some c => fz_colorspace_n ctx c | None => FZ_MAX_COLORS end) jcolor;
          if ok =? 0 then ret tt else
          '(info, err) ← lockNativeDevice self;
          if negb (err =? 0) then ret tt else
          fz_try (call_fitz (fz_fill_path ctx dev path even_odd ctm cs color alpha cp))
            (unlockNativeDevice info)
            (jni_rethrow ctx)
            (fun _ => ret tt)
      end
  | _, _ => ret tt
  end.

Definition NativeDevice_strokePath (self jpath jstroke jctm jcs : jobject)
    (jcolor : jfloatArray) (alpha : float) (jcp : Z) : M unit :=
  let ctx := get_context in
  let dev := from_Device self in
  let path := from_Path jpath in
  let stroke := from_StrokeState jstroke in
  let ctm := from_Matrix jctm in
  let cs := from_ColorSpace jcs in
  let cp := from_ColorParams_safe jcp in
  match ctx, dev with
  | Some ctx, Some dev =>
      match path with
      | None => jni_throw_arg "path must not be null"
      | Some path =>
          match stroke with
          | None => jni_throw_arg "stroke must not be null"
          | Some stroke =>
              '(ok, color) ← from_jfloatArray
                 (match cs with Some c => fz_colorspace_n ctx c | None => FZ_MAX_COLORS end) jcolor;
              if ok =? 0 then ret tt else
              '(info, err) ← lockNativeDevice self;
              if negb (err =? 0) then ret tt else
              fz_try (call_fitz (fz_stroke_path ctx dev path stroke ctm cs color alpha cp))
                (unlockNativeDevice info)
                (jni_rethrow ctx)
                (fun _ => ret tt)
          end
      end
  | _, _ => ret tt
  end.

Definition NativeDevice_clipPath (self jpath : jobject) (even_odd : bool) (jctm : jobject)
    : M unit :=
  let ctx := get_context in
  let dev := from_Device self in
  let path := from_Path jpath in
  let ctm := from_Matrix jctm in
  match ctx, dev with
  | Some ctx, Some dev =>
      match path with
      | None => jni_throw_arg "path must not be null"
      | Some path =>
          '(info, err) ← lockNativeDevice self;
          if negb (err =? 0) then ret tt else
          fz_try (call_fitz (fz_clip_path ctx dev path even_odd ctm fz_infinite_rect))
            (unlockNativeDevice info)
            (jni_rethrow ctx)
            (fun _ => ret tt)
      end
  | _, _ => ret tt
  end.

Definition NativeDevice_clipStrokePath (self jpath jstroke jctm : jobject) : M unit :=
  let ctx := get_context in
  let dev := from_Device self in
  let path := from_Path jpath in
  let stroke := from_StrokeState jstroke in
  let ctm := from_Matrix jctm in
  match ctx, dev with
  | Some ctx, Some dev =>
      match path with
      | None => jni_throw_arg "path must not be null"
      | Some path =>
          match stroke with
          | None => jni_throw_arg "stroke must not be null"
          | Some stroke =>
              '(info, err) ← lockNativeDevice self;
              if negb (err =? 0) then ret tt else
              fz_try (call_fitz (fz_clip_stroke_path ctx dev path stroke ctm fz_infinite_rect))
                (unlockNativeDevice info)
                (jni_rethrow ctx)
                (fun _ => ret tt)
          end
      end
  | _, _ => ret tt
  end.

Definition NativeDevice_fillText (self jtext jctm jcs : jobject) (jcolor : jfloatArray)
    (alpha : float) (jcp : Z) : M unit :=
  let ctx := get_context in
  let dev := from_Device self in
  let text := from_Text jtext in
  let ctm := from_Matrix jctm in
  let cs := from_ColorSpace jcs in
  let cp := from_ColorParams_safe jcp in
  match ctx, dev with
  | Some ctx, Some dev =>
      match text with
      | None => jni_throw_arg "text must not be null"
      | Some text =>
          '(ok, color) ← from_jfloatArray
             (match cs with Some c => fz_colorspace_n ctx c | None => FZ_MAX_COLORS end) jcolor;
          if ok =? 0 then ret tt else
          '(info, err) ← lockNativeDevice self;
          if negb (err =? 0) then ret tt else
          fz_try (call_fitz (fz_fill_text ctx dev text ctm cs color alpha cp))
            (unlockNativeDevice info)
            (jni_rethrow ctx)
            (fun _ => ret tt)
      end
  | _, _ => ret tt
  end.

Definition NativeDevice_strokeText (self jtext jstroke jctm jcs : jobject)
    (jcolor : jfloatArray) (alpha : float) (jcp : Z) : M unit :=
  let ctx := get_context in
  let dev := from_Device self in
  let text := from_Text jtext in
  let stroke := from_StrokeState jstroke in
  let ctm := from_Matrix jctm in
  let cs := from_ColorSpace jcs in
  let cp := from_ColorParams_safe jcp in
  match ctx, dev with
  | Some ctx, Some dev =>
      match text with
      | None => jni_throw_arg "text must not be null"
      | Some text =>
          match stroke with
          | None => jni_throw_arg "stroke must not be null"
          | Some stroke =>
              '(ok, color) ← from_jfloatArray
                 (match cs with Some c => fz_colorspace_n ctx c | None => FZ_MAX_COLORS end) jcolor;
              if ok =? 0 then ret tt else
              '(info, err) ← lockNativeDevice self;
              if negb (err =? 0) then ret tt else
              fz_try (call_fitz (fz_stroke_text ctx dev text stroke ctm cs color alpha cp))
                (unlockNativeDevice info)
                (jni_rethrow ctx)
                (fun _ => ret tt)
          end
      end
  | _, _ => ret tt
  end.

Definition NativeDevice_clipText (self jtext jctm : jobject) : M unit :=
  let ctx := get_context in
  let dev := from_Device self in
  let text := from_Text jtext in
  let ctm := from_Matrix jctm in
  match ctx, dev with
  | Some ctx, Some dev =>
      match text with
      | None => jni_throw_arg "text must not be null"
      | Some text =>
          '(info, err) ← lockNativeDevice self;
          if negb (err =? 0) then ret tt else
          fz_try (call_fitz (fz_clip_text ctx dev text ctm fz_infinite_rect))
            (unlockNativeDevice info)
            (jni_rethrow ctx)
            (fun _ => ret tt)
      end
  | _, _ => ret tt
  end.

Definition NativeDevice_clipStrokeText (self jtext jstroke jctm : jobject) : M unit :=
  let ctx := get_context in
  let dev := from_Device self in
  let text := from_Text jtext in
  let stroke := from_StrokeState jstroke in
  let ctm := from_Matrix jctm in
  match ctx, dev with
  | Some ctx, Some dev =>
      match text with
      | None => jni_throw_arg "text must not be null"
      | Some text =>
          match stroke with
          | None => jni_throw_arg "stroke must not be null"
          | Some stroke =>
              '(info, err) ← lockNativeDevice self;
              if negb (err =? 0) then ret tt else
              fz_try (call_fitz (fz_clip_stroke_text ctx dev text stroke ctm fz_infinite_rect))
                (unlockNativeDevice info)
                (jni_rethrow ctx)
                (fun _ => ret tt)
          end
      end
  | _, _ => ret tt
  end.

Definition NativeDevice_ignoreText (self jtext jctm : jobject) : M unit :=
  let ctx := get_context in
  let dev := from_Device self in
  let text := from_Text jtext in
  let ctm := from_Matrix jctm in
  match ctx, dev with
  | Some ctx, Some dev =>
      match text with
      | None => jni_throw_arg "text must not be null"
      | Some text =>
          '(info, err) ← lockNativeDevice self;
          if negb (err =? 0) then ret tt else
          fz_try (call_fitz (fz_ignore_text ctx dev text ctm))
            (unlockNativeDevice info)
            (jni_rethrow ctx)
            (fun _ => ret tt)
      end
  | _, _ => ret tt
  end.

Definition NativeDevice_fillShade (self jshd jctm : jobject) (alpha : float) (jcp : Z) : M unit :=
  let ctx := get_context in
  let dev := from_Device self in
  let shd := from_Shade jshd in
  let ctm := from_Matrix jctm in
  let cp := from_ColorParams_safe jcp in
  match ctx, dev with
  | Some ctx, Some dev =>
      match shd with
      | None => jni_throw_arg "shade must not be null"
      | Some shd =>
          '(info, err) ← lockNativeDevice self;
          if negb (err =? 0) then ret tt else
          fz_try (call_fitz (fz_fill_shade ctx dev shd ctm alpha cp))
            (unlockNativeDevice info)
            (jni_rethrow ctx)
            (fun _ => ret tt)
      end
  | _, _ => ret tt
  end.

Definition NativeDevice_fillImage (self jimg jctm : jobject) (alpha : float) (jcp : Z) : M unit :=
  let ctx := get_context in
  let dev := from_Device self in
  let img := from_Image jimg in
  let ctm := from_Matrix jctm in
  let cp := from_ColorParams_safe jcp in
  match ctx, dev with
  | Some ctx, Some dev =>
      match img with
      | None => jni_throw_arg "image must not be null"
      | Some img =>
          '(info, err) ← lockNativeDevice self;
          if negb (err =? 0) then ret tt else
          fz_try (call_fitz (fz_fill_image ctx dev img ctm alpha cp))
            (unlockNativeDevice info)
            (jni_rethrow ctx)
            (fun _ => ret tt)
      end
  | _, _ => ret tt
  end.

Definition NativeDevice_fillImageMask (self jimg jctm jcs : jobject) (jcolor : jfloatArray)
    (alpha : float) (jcp : Z) : M unit :=
  let ctx := get_context in
  let dev := from_Device self in
  let img := from_Image jimg in
  let ctm := from_Matrix jctm in
  let cs := from_ColorSpace jcs in
  let cp := from_ColorParams_safe jcp in
  match ctx, dev with
  | Some ctx, Some dev =>
      match img with
      | None => jni_throw_arg "image must not be null"
      | Some img =>
          '(ok, color) ← from_jfloatArray
             (match cs with Some c => fz_colorspace_n ctx c | None => FZ_MAX_COLORS end) jcolor;
          if ok =? 0 then ret tt else
          '(info, err) ← lockNativeDevice self;
          if negb (err =? 0) then ret tt else
          fz_try (call_fitz (fz_fill_image_mask ctx dev img ctm cs color alpha cp))
            (unlockNativeDevice info)
            (jni_rethrow ctx)
            (fun _ => ret tt)
      end
  | _, _ => ret tt
  end.

Definition NativeDevice_clipImageMask (self jimg jctm : jobject) : M unit :=
  let ctx := get_context in
  let dev := from_Device self in
  let img := from_Image jimg in
  let ctm := from_Matrix jctm in
  match ctx, dev with
  | Some ctx, Some dev =>
      match img with
      | None => jni_throw_arg "image must not be null"
      | Some img =>
          '(info, err) ← lockNativeDevice self;
          if negb (err =? 0) then ret tt else
          fz_try (call_fitz (fz_clip_image_mask ctx dev img ctm fz_infinite_rect))
            (unlockNativeDevice info)
            (jni_rethrow ctx)
            (fun _ => ret tt)
      end
  | _, _ => ret tt
  end.

Definition NativeDevice_popClip (self : jobject) : M unit :=
  let ctx := get_context in
  let dev := from_Device self in
  match ctx, dev with
  | Some ctx, Some dev =>
      '(info, err) ← lockNativeDevice self;
      if negb (err =? 0) then ret tt else
      fz_try (call_fitz (fz_pop_clip ctx dev))
        (unlockNativeDevice info)
        (jni_rethrow ctx)
        (fun _ => ret tt)
  | _, _ => ret tt
  end.

(** [name] is declared without an initializer and assigned only when
    [jname] is not null. *)
Definition NativeDevice_beginLayer (self jname : jobject) : M unit :=
  let ctx := get_context in
  let dev := from_Device self in
  match ctx, dev with
  | Some ctx, Some dev =>
      let locked (name : c_string) : M unit :=
        '(info, err) ← lockNativeDevice self;
        if negb (err =? 0) then ret tt else
        fz_try (call_fitz (fz_begin_layer ctx dev name))
          (emit (EvReleaseStringUTFChars jname name);;
           unlockNativeDevice info)
          (jni_rethrow ctx)
          (fun _ => ret tt) in
      match jname with
      | Some _ =>
          match GetStringUTFChars jname with
          | None => ret tt
          | Some chars => locked (CChars chars)
          end
      | None => locked Indeterminate
      end
  | _, _ => ret tt
  end.

Definition NativeDevice_endLayer (self : jobject) : M unit :=
  let ctx := get_context in
  let dev := from_Device self in
  match ctx, dev with
  | Some ctx, Some dev =>
      '(info, err) ← lockNativeDevice self;
      if negb (err =? 0) then ret tt else
      fz_try (call_fitz (fz_end_layer ctx dev))
        (unlockNativeDevice info)
        (jni_rethrow ctx)
        (fun _ => ret tt)
  | _, _ => ret tt
  end.

Definition NativeDevice_beginMask (self jrect : jobject) (luminosity : bool) (jcs : jobject)
    (jcolor : jfloatArray) (jcp : Z) : M unit :=
  let ctx := get_context in
  let dev := from_Device self in
  let rect := from_Rect jrect in
  let cs := from_ColorSpace jcs in
  let cp := from_ColorParams_safe jcp in
  match ctx, dev with
  | Some ctx, Some dev =>
      '(ok, color) ← from_jfloatArray
         (match cs with Some c => fz_colorspace_n ctx c | None => FZ_MAX_COLORS end) jcolor;
      if ok =? 0 then ret tt else
      '(info, err) ← lockNativeDevice self;
      if negb (err =? 0) then ret tt else
      fz_try (call_fitz (fz_begin_mask ctx dev rect luminosity cs color cp))
        (unlockNativeDevice info)
        (jni_rethrow ctx)
        (fun _ => ret tt)
  | _, _ => ret tt
  end.

Definition NativeDevice_endMask (self : jobject) : M unit :=
  let ctx := get_context in
  let dev := from_Device self in
  match ctx, dev with
  | Some ctx, Some dev =>
      '(info, err) ← lockNativeDevice self;
      if negb (err =? 0) then ret tt else
      fz_try (call_fitz (fz_end_mask ctx dev))
        (unlockNativeDevice info)
        (jni_rethrow ctx)
        (fun _ => ret tt)
  | _, _ => ret tt
  end.

Definition NativeDevice_beginGroup (self jrect jcs : jobject) (isolated knockout : bool)
    (blendmode : Z) (alpha : float) : M unit :=
  let ctx := get_context in
  let dev := from_Device self in
  let rect := from_Rect jrect in
  let cs := from_ColorSpace self in
  match ctx, dev with
  | Some ctx, Some dev =>
      '(info, err) ← lockNativeDevice self;
      if negb (err =? 0) then ret tt else
      fz_try (call_fitz (fz_begin_group ctx dev rect cs isolated knockout blendmode alpha))
        (unlockNativeDevice info)
        (jni_rethrow ctx)
        (fun _ => ret tt)
  | _, _ => ret tt
  end.

Definition NativeDevice_endGroup (self : jobject) : M unit :=
  let ctx := get_context in
  let dev := from_Device self in
  match ctx, dev with
  | Some ctx, Some dev =>
      '(info, err) ← lockNativeDevice self;
      if negb (err =? 0) then ret tt else
      fz_try (call_fitz (fz_end_group ctx dev))
        (unlockNativeDevice info)
        (jni_rethrow ctx)
        (fun _ => ret tt)
  | _, _ => ret tt
  end.

Definition NativeDevice_beginTile (self jarea jview : jobject) (xstep ystep : float)
    (jctm : jobject) (id : Z) : M Z :=
  let ctx := get_context in
  let dev := from_Device self in
  let area := from_Rect jarea in
  let view := from_Rect jview in
  let ctm := from_Matrix jctm in
  match ctx, dev with
  | Some ctx, Some dev =>
      '(info, err) ← lockNativeDevice self;
      if negb (err =? 0) then ret 0 else
      fz_try (call_fitz (fz_begin_tile_id ctx dev area view xstep ystep ctm id))
        (unlockNativeDevice info)
        (fun e => jni_rethrow ctx e;; ret 0)
        (fun i => ret i)
  | _, _ => ret 0
  end.

Definition NativeDevice_endTile (self : jobject) : M unit :=
  let ctx := get_context in
  let dev := from_Device self in
  match ctx, dev with
  | Some ctx, Some dev =>
      '(info, err) ← lockNativeDevice self;
      if negb (err =? 0) then ret tt else
      fz_try (call_fitz (fz_end_tile ctx dev))
        (unlockNativeDevice info)
        (jni_rethrow ctx)
        (fun _ => ret tt)
  | _, _ => ret tt
  end.

(** ** The device interface as a whole

    An [invocation] is one call of an entry point with its Java arguments;
    [invoke] runs it.  Its value is [None] for the [void] entry points and
    the returned [jint] for [beginTile]. *)

Inductive invocation :=
| close
| fillPath (jpath : jobject) (even_odd : bool) (jctm jcs : jobject) (jcolor : jfloatArray)
    (alpha : float) (jcp : Z)
| strokePath (jpath jstroke jctm jcs : jobject) (jcolor : jfloatArray) (alpha : float) (jcp : Z)
| clipPath (jpath : jobject) (even_odd : bool) (jctm : jobject)
| clipStrokePath (jpath jstroke jctm : jobject)
| fillText (jtext jctm jcs : jobject) (jcolor : jfloatArray) (alpha : float) (jcp : Z)
| strokeText (jtext jstroke jctm jcs : jobject) (jcolor : jfloatArray) (alpha : float) (jcp : Z)
| clipText (jtext jctm : jobject)
| clipStrokeText (jtext jstroke jctm : jobject)
| ignoreText (jtext jctm : jobject)
| fillShade (jshd jctm : jobject) (alpha : float) (jcp : Z)
| fillImage (jimg jctm : jobject) (alpha : float) (jcp : Z)
| fillImageMask (jimg jctm jcs : jobject) (jcolor : jfloatArray) (alpha : float) (jcp : Z)
| clipImageMask (jimg jctm : jobject)
| popClip
| beginLayer (jname : jobject)
| endLayer
| beginMask (jrect : jobject) (luminosity : bool) (jcs : jobject) (jcolor : jfloatArray) (jcp : Z)
| endMask
| beginGroup (jrect jcs : jobject) (isolated knockout : bool) (blendmode : Z) (alpha : float)
| endGroup
| beginTile (jarea jview : jobject) (xstep ystep : float) (jctm : jobject) (id : Z)
| endTile.

Definition void (m : M unit) : M (option Z) := m;; ret None.

Definition invoke (self : jobject) (i : invocation) : M (option Z) :=
  match i with
  | close => void (NativeDevice_close self)
  | fillPath jpath even_odd jctm jcs jcolor alpha jcp =>
      void (NativeDevice_fillPath self jpath even_odd jctm jcs jcolor alpha jcp)
  | strokePath jpath jstroke jctm jcs jcolor alpha jcp =>
      void (NativeDevice_strokePath self jpath jstroke jctm jcs jcolor alpha jcp)
  | clipPath jpath even_odd jctm => void (NativeDevice_clipPath self jpath even_odd jctm)
  | clipStrokePath jpath jstroke jctm =>
      void (NativeDevice_clipStrokePath self jpath jstroke jctm)
  | fillText jtext jctm jcs jcolor alpha jcp =>
      void (NativeDevice_fillText self jtext jctm jcs jcolor alpha jcp)
  | strokeText jtext jstroke jctm jcs jcolor alpha jcp =>
      void (NativeDevice_strokeText self jtext jstroke jctm jcs jcolor alpha jcp)
  | clipText jtext jctm => void (NativeDevice_clipText self jtext jctm)
  | clipStrokeText jtext jstroke jctm =>
      void (NativeDevice_clipStrokeText self jtext jstroke jctm)
  | ignoreText jtext jctm => void (NativeDevice_ignoreText self jtext jctm)
  | fillShade jshd jctm alpha jcp => void (NativeDevice_fillShade self jshd jctm alpha jcp)
  | fillImage jimg jctm alpha jcp => void (NativeDevice_fillImage self jimg jctm alpha jcp)
  | fillImageMask jimg jctm jcs jcolor alpha jcp =>
      void (NativeDevice_fillImageMask self jimg jctm jcs jcolor alpha jcp)
  | clipImageMask jimg jctm => void (NativeDevice_clipImageMask self jimg jctm)
  | popClip => void (NativeDevice_popClip self)
  | beginLayer jname => void (NativeDevice_beginLayer self jname)
  | endLayer => void (NativeDevice_endLayer self)
  | beginMask jrect luminosity jcs jcolor jcp =>
      void (NativeDevice_beginMask self jrect luminosity jcs jcolor jcp)
  | endMask => void (NativeDevice_endMask self)
  | beginGroup jrect jcs isolated knockout blendmode alpha =>
      void (NativeDevice_beginGroup self jrect jcs isolated knockout blendmode alpha)
  | endGroup => void (NativeDevice_endGroup self)
  | beginTile jarea jview xstep ystep jctm id =>
      i ← NativeDevice_beginTile self jarea jview xstep ystep jctm id; ret (Some i)
  | endTile => void (NativeDevice_endTile self)
  end.

(** What an entry point returns when it gives up: nothing, or 0. *)
Definition no_result (i : invocation) : option Z :=
  match i with
  | beginTile _ _ _ _ _ _ => Some 0
  | _ => None
  end.

(** ** Reading the event log *)

Definition is_lock (e : event) : bool := match e with EvLock _ _ => true | _ => false end.
Definition is_unlock (e : event) : bool := match e with EvUnlock _ => true | _ => false end.
Definition is_backend (e : event) : bool := match e with EvBackend _ => true | _ => false end.

Definition count (p : event -> bool) (l : list event) : nat := length (List.filter p l).

(** The device is stale: no context, or no fitz device behind [self]. *)
Definition stale (self : jobject) : Prop := get_context = None ∨ from_Device self = None.

(** The device has no handle: [self] is no [NativeDevice], or its
    [nativeInfo] field is 0. *)
Definition no_handle (self : jobject) (s : JVM) : Prop :=
  ∃ r ob, self = Some r ∧ objects s !! r = Some ob ∧
          (instanceof_NativeDevice ob = false ∨ nativeInfo ob = 0).

(** [self] denotes an object, and its [nativeInfo] is 0 or the address of
    an allocated handle. *)
Definition well_formed (self : jobject) (s : JVM) : Prop :=
  ∃ r ob, self = Some r ∧ objects s !! r = Some ob ∧
          (nativeInfo ob = 0 ∨ is_Some (heap s !! nativeInfo ob)).

(** ** The arguments an entry point requires

    The names of the required resource arguments of an invocation whose
    native pointer is [NULL], in the order the entry point checks them:
    the path of the path operations, the text of the text operations, the
    stroke of the stroke variants, the image of the image operations and
    the shade of [fillShade]. *)

Definition absent {A} (name : string) (p : option A) : list string :=
  match p with
  | Some _ => []
  | None => [name]
  end.

Definition missing_arguments (i : invocation) : list string :=
  match i with
  | fillPath jpath _ _ _ _ _ _ => absent "path" (from_Path jpath)
  | strokePath jpath jstroke _ _ _ _ _ =>
      absent "path" (from_Path jpath) ++ absent "stroke" (from_StrokeState jstroke)
  | clipPath jpath _ _ => absent "path" (from_Path jpath)
  | clipStrokePath jpath jstroke _ =>
      absent "path" (from_Path jpath) ++ absent "stroke" (from_StrokeState jstroke)
  | fillText jtext _ _ _ _ _ => absent "text" (from_Text jtext)
  | strokeText jtext jstroke _ _ _ _ _ =>
      absent "text" (from_Text jtext) ++ absent "stroke" (from_StrokeState jstroke)
  | clipText jtext _ => absent "text" (from_Text jtext)
  | clipStrokeText jtext jstroke _ =>
      absent "text" (from_Text jtext) ++ absent "stroke" (from_StrokeState jstroke)
  | ignoreText jtext _ => absent "text" (from_Text jtext)
  | fillShade jshd _ _ _ => absent "shade" (from_Shade jshd)
  | fillImage jimg _ _ _ => absent "image" (from_Image jimg)
  | fillImageMask jimg _ _ _ _ _ => absent "image" (from_Image jimg)
  | clipImageMask jimg _ => absent "image" (from_Image jimg)
  | _ => []
  end.

(** The color space and color array arguments of the entry points that
    take a color. *)
Definition color_argument (i : invocation) : option (jobject * jfloatArray) :=
  match i with
  | fillPath _ _ _ jcs jcolor _ _ => Some (jcs, jcolor)
  | strokePath _ _ _ jcs jcolor _ _ => Some (jcs, jcolor)
  | fillText _ _ jcs jcolor _ _ => Some (jcs, jcolor)
  | strokeText _ _ _ jcs jcolor _ _ => Some (jcs, jcolor)
  | fillImageMask _ _ jcs jcolor _ _ => Some (jcs, jcolor)
  | beginMask _ _ jcs jcolor _ => Some (jcs, jcolor)
  | _ => None
  end.

(** The channel count a color array is checked against: that of the color
    space, or the fixed maximum when there is none. *)
Definition expected_channels (ctx : fz_context) (jcs : jobject) : Z :=
  match from_ColorSpace jcs with
  | Some cs => fz_colorspace_n ctx cs
  | None => FZ_MAX_COLORS
  end.

(** ** The runs of the helpers and of the protocol *)

(** The state after a callback that raised [e], or raised nothing. *)
Definition raised (e : option jthrowable) (s : JVM) : JVM :=
  match e with
  | Some e => set_pending (Some e) s
  | None => s
  end.

(** The three ways [lockNativeDevice] can run: a memory fault before
    anything is called; no handle, nothing called; or the lock function of
    the handle called once, with result [k]. *)
Inductive lock_run (self : jobject) (s : JVM) : run (Z * Z) -> Prop :=
| lock_faulted f : lock_run self s (Run (Faulted f) s [])
| lock_absent : lock_run self s (Run (Done (0, 0)) s [])
| lock_called r ob h k h' e :
    self = Some r -> objects s !! r = Some ob -> instanceof_NativeDevice ob = true ->
    nativeInfo ob ≠ 0 -> heap s !! nativeInfo ob = Some h ->
    lock_code (lock h) (set_object (nativeResource ob) h) = (k, h', e) ->
    lock_run self s
      (Run (Done (if k =? 0 then (nativeInfo ob, 0) else (0, 1)))
           (raised e (set_heap (<[nativeInfo ob := h']>
              (<[nativeInfo ob := set_object (nativeResource ob) h]> (heap s))) s))
           [EvLock (nativeInfo ob) k]).

(** The value of an entry point after a fitz call that returned [r]. *)
Definition returned (i : invocation) (r : Z) : option Z :=
  match i with
  | beginTile _ _ _ _ _ _ => Some r
  | _ => None
  end.

(** What the [fz_always] block does before it unlocks: nothing, or (in
    [beginLayer]) the release of the characters of the name. *)
Definition released (rel : option (jobject * c_string)) : list event :=
  match rel with
  | Some (jname, name) => [EvReleaseStringUTFChars jname name]
  | None => []
  end.

Definition emit_all (l : list event) : M unit := fun s => Run (Done tt) s l.

(** The part every entry point shares once its checks have passed: lock,
    one fitz call [c] under [fz_try], release and unlock under [fz_always],
    rethrow under [fz_catch]. *)
Definition protocol (self : jobject) (i : invocation) (ctx : fz_context)
    (c : backend_call) (rel : option (jobject * c_string)) : M (option Z) :=
  '(info, err) ← lockNativeDevice self;
  if negb (err =? 0) then ret (no_result i) else
  fz_try (call_fitz c)
    (emit_all (released rel);; unlockNativeDevice info)
    (fun e => jni_rethrow ctx e;; ret (no_result i))
    (fun r => ret (returned i r)).

(** The value and the state an entry point ends with, from what the fitz
    call did. *)
Definition result_of (i : invocation) (o : fz_outcome) : option Z :=
  match o with
  | fz_returns r => returned i r
  | fz_throws _ => no_result i
  end.

Definition caught (o : fz_outcome) (s : JVM) : JVM :=
  match o with
  | fz_returns _ => s
  | fz_throws e => set_pending (Some (BackendFailure e)) s
  end.

(** The four ways the protocol can run: a memory fault in
    [lockNativeDevice]; no handle; a lock that failed; a lock that was
    taken. *)
Inductive protocol_run (self : jobject) (i : invocation) (c : backend_call)
    (rel : option (jobject * c_string)) (s : JVM) : run (option Z) -> Prop :=
| run_faulted f :
    lockNativeDevice self s = Run (Faulted f) s [] ->
    protocol_run self i c rel s (Run (Faulted f) s [])
| run_unlocked :
    lockNativeDevice self s = Run (Done (0, 0)) s [] ->
    protocol_run self i c rel s
      (Run (Done (result_of i (fitz c))) (caught (fitz c) s) (EvBackend c :: released rel))
| run_lock_failed a k e s1 :
    k ≠ 0 ->
    lockNativeDevice self s = Run (Done (0, 1)) (raised e s1) [EvLock a k] ->
    (∃ f h h', lock_code f h = (k, h', e)) ->
    pending s1 = pending s ->
    protocol_run self i c rel s (Run (Done (no_result i)) (raised e s1) [EvLock a k])
| run_locked a s1 s2 :
    a ≠ 0 ->
    lockNativeDevice self s = Run (Done (a, 0)) s1 [EvLock a 0] ->
    unlockNativeDevice a s1 = Run (Done tt) s2 [EvUnlock a] ->
    protocol_run self i c rel s
      (Run (Done (result_of i (fitz c))) (caught (fitz c) s2)
           (EvLock a 0 :: EvBackend c :: released rel ++ [EvUnlock a])).

End NativeDevice.

Arguments Run {fz_matrix fz_rect fz_color_params A} _ _ _.
Arguments outcome {fz_matrix fz_rect fz_color_params A} _.
Arguments final {fz_matrix fz_rect fz_color_params A} _.
Arguments events {fz_matrix fz_rect fz_color_params A} _.

(** * Test doubles

    A fake environment: every Java reference but [self] resolves to a
    native object at the same address, the color space at address 4 is gray
    (one channel) and the one at address 6 RGB, the lock function returns
    [lock_ret] (and signals a [LockFailure] when that is not 0), and every
    fitz call does [backend]. *)

Definition resolve {k : native_kind} (o : jobject) : option (native k) := NativePtr <$> o.

Definition self0 : jobject := Some 1%positive.

Definition fake (ctx : option fz_context) (dev : option fz_device) (lock_ret : Z)
    (backend : fz_outcome) : @Externals unit unit unit := {|
  get_context := ctx;
  from_Device := fun o => if decide (o = self0) then dev else None;
  from_Path := resolve;
  from_Text := resolve;
  from_StrokeState := resolve;
  from_ColorSpace := fun o => if decide (o = self0) then None else resolve o;
  from_Shade := resolve;
  from_Image := resolve;
  from_Matrix := fun _ => tt;
  from_Rect := fun _ => tt;
  from_ColorParams_safe := fun _ => tt;
  fz_colorspace_n := fun _ cs =>
    match cs with NativePtr 4 => 1 | NativePtr 6 => 3 | _ => 4 end;
  FZ_MAX_COLORS := 32;
  fz_infinite_rect := tt;
  GetStringUTFChars := fun _ => Some "layer";
  lock_code := fun _ h =>
    (lock_ret, h, if lock_ret =? 0 then None else Some (LockFailure "lock failed"));
  unlock_code := fun _ h => (h, None);
  fitz := fun _ => backend;
  Device_finalize := fun _ s => s
|}.

Definition ctx0 : fz_context := NativePtr 1.
Definition dev0 : fz_device := NativePtr 2.

(** A live device whose backend succeeds, one whose backend always fails,
    one whose lock fails, and a stale one. *)
Definition live_device : @Externals unit unit unit := fake (Some ctx0) (Some dev0) 0 (fz_returns 7).
Definition failing_backend : @Externals unit unit unit :=
  fake (Some ctx0) (Some dev0) 0
    (fz_throws {| fz_caught := 2; fz_caught_message := "malformed path" |}).
Definition failing_lock : @Externals unit unit unit :=
  fake (Some ctx0) (Some dev0) 1 (fz_returns 7).
Definition stale_device : @Externals unit unit unit := fake (Some ctx0) None 0 (fz_returns 7).

Definition handle0 : NativeDeviceInfo := {|
  lock := 1%positive; unlock := 2%positive; object := None; pixmap := Some (NativePtr 9);
  xOffset := 0; yOffset := 0; width := 640; height := 480
|}.

(** A draw device: [self] carries the handle allocated at address 100. *)
Definition draw_device : JVM := {|
  objects := {[ 1%positive :=
    {| instanceof_NativeDevice := true; nativeInfo := 100; nativeResource := Some 5%positive |} ]};
  heap := {[ 100 := handle0 ]};
  pending := None
|}.

(** A display-list device: no handle. *)
Definition list_device : JVM := {|
  objects := {[ 1%positive :=
    {| instanceof_NativeDevice := true; nativeInfo := 0; nativeResource := None |} ]};
  heap := ∅;
  pending := None
|}.

Definition gray : jobject := Some 4%positive.
Definition rgb : jobject := Some 6%positive.
Definition a_path : jobject := Some 3%positive.

(** A [fillPath] with a path and one value for the one channel of gray. *)
Definition good_fill : invocation :=
  fillPath a_path false None gray (Some [0.5%float]) 1%float 0.

Section Properties.

Context {fz_matrix fz_rect fz_color_params : Type}.
Context `{!@Externals fz_matrix fz_rect fz_color_params}.

(** * Properties of the entry points *)

(** ** The run of [lockNativeDevice] and [unlockNativeDevice] *)

Ltac unfold_run :=
  unfold IsInstanceOf, GetLongField, GetObjectField, call_lock, call_unlock, call_fitz,
    load, store, throw, emit, update, raise_fault, jni_throw_arg, jni_rethrow,
    mbind, M_bind, bind, ret; simpl.

Ltac run_step :=
  match goal with
  | |- context [<[?a := ?x]> ?m !! ?a] => rewrite (lookup_insert_eq m a x)
  | H : ?x = _ |- context [match ?x with _ => _ end] => rewrite H
  | |- context [match ?x with _ => _ end] =>
      lazymatch x with
      | context [match _ with _ => _ end] => fail
      | context [if _ then _ else _] => fail
      | _ => destruct x eqn:?
      end
  | |- context [if ?x then _ else _] =>
      lazymatch x with
      | context [match _ with _ => _ end] => fail
      | context [if _ then _ else _] => fail
      | _ => destruct x eqn:?
      end
  end; simpl in *.

Lemma lockNativeDevice_run self s : lock_run self s (lockNativeDevice self s).
Proof.
  unfold lockNativeDevice. unfold_run. repeat run_step; subst;
    try (constructor; fail).
  all: match goal with
    | Hl : lock_code _ _ = _, Ho : objects _ !! _ = Some ?j, Hh : heap _ !! _ = Some _,
      Hi : negb (instanceof_NativeDevice ?j) = false, Hz : (nativeInfo ?j =? 0) = false |- _ =>
        apply negb_false_iff in Hi; apply Z.eqb_neq in Hz;
        pose proof (lock_called _ _ _ _ _ _ _ _ eq_refl Ho Hi Hz Hh Hl) as Hrun
    end.
  all: match goal with
    | Hk : negb (?k =? 0) = _ |- _ => destruct (k =? 0)
    end; simpl in *; try discriminate; exact Hrun.
Qed.

(** Without a handle nothing is locked, and that is no error. *)
Lemma lockNativeDevice_no_handle self s :
  no_handle self s -> lockNativeDevice self s = Run (Done (0, 0)) s [].
Proof.
  intros (r & ob & -> & Hob & Hno).
  unfold lockNativeDevice. unfold_run. rewrite Hob. simpl.
  destruct Hno as [-> | Hz]; simpl; [reflexivity|].
  destruct (instanceof_NativeDevice ob); simpl; [|reflexivity].
  rewrite Hob, Hz. reflexivity.
Qed.

Lemma unlockNativeDevice_null s : unlockNativeDevice 0 s = Run (Done tt) s [].
Proof. reflexivity. Qed.

(** With the handle allocated at [a], [unlockNativeDevice] calls its unlock
    function once. *)
Lemma unlockNativeDevice_run a h s :
  a ≠ 0 -> heap s !! a = Some h ->
  unlockNativeDevice a s =
    Run (Done tt)
        (raised (unlock_code (unlock h) h).2
                (set_heap (<[a := (unlock_code (unlock h) h).1]> (heap s)) s))
        [EvUnlock a].
Proof.
  intros Ha Hh. unfold unlockNativeDevice.
  apply Z.eqb_neq in Ha. rewrite Ha. unfold_run. rewrite Hh.
  destruct (unlock_code (unlock h) h) as [h' [e|]]; reflexivity.
Qed.

Lemma heap_raised e s : heap (raised e s) = heap s.
Proof. destruct e; reflexivity. Qed.

(** ** The protocol every entry point follows after its checks *)

Lemma fz_try_run i ctx c (always : M unit) s s2 evu :
  always s = Run (Done tt) s2 evu ->
  fz_try (call_fitz c) always
    (fun e => jni_rethrow ctx e;; ret (no_result i)) (fun r => ret (returned i r)) s
  = Run (Done (result_of i (fitz c))) (caught (fitz c) s2) (EvBackend c :: evu).
Proof.
  intros Ha. unfold fz_try. unfold_run. rewrite Ha.
  destruct (fitz c); simpl; rewrite app_nil_r; reflexivity.
Qed.

Lemma protocol_runs self i ctx c rel s :
  protocol_run self i c rel s (protocol self i ctx c rel s).
Proof.
  unfold protocol. unfold mbind at 1. unfold M_bind, bind.
  pose proof (lockNativeDevice_run self s) as Hl.
  inversion Hl as [f Hf | Ha | r ob h k h' e -> Hob Hin Hz Hh Hc Hr]; simpl.
  - constructor. congruence.
  - erewrite fz_try_run by (unfold_run; unfold emit_all; simpl; reflexivity).
    rewrite app_nil_r. constructor. congruence.
  - destruct (Z.eqb_spec k 0) as [-> | Hk]; simpl.
    + erewrite fz_try_run; cycle 1.
      { unfold mbind, M_bind, bind, emit_all.
        erewrite unlockNativeDevice_run; [reflexivity | assumption |].
        rewrite heap_raised. apply lookup_insert_eq. }
      simpl. eapply run_locked; [assumption | symmetry; exact Hr |].
      apply unlockNativeDevice_run; [assumption|].
      rewrite heap_raised. apply lookup_insert_eq.
    + eapply run_lock_failed; [assumption | | eauto | reflexivity].
      rewrite <- Hr. destruct (Z.eqb_spec k 0); [contradiction | reflexivity].
Qed.

(** Every invocation either stops in its checks, leaving the state as it
    was or with an [InvalidArgument] pending, or follows the protocol. *)
Ltac give_call :=
  lazymatch goal with
  | |- context [mbind ?K (ret (1, ?l))] =>
      let body := eval cbv beta iota in (K (1, l)) in
      lazymatch body with
      | context [call_fitz ?c] => exists c, None
      end
  | |- context [call_fitz ?c] =>
      lazymatch goal with
      | |- context [emit (EvReleaseStringUTFChars ?j ?n)] => exists c, (Some (j, n))
      | _ => exists c, None
      end
  end.

Ltac same_run :=
  unfold protocol, void, fz_try, emit_all, released; unfold_run;
  repeat run_step; rewrite ?app_nil_r; reflexivity.

Lemma invoke_cases self i s :
  invoke self i s = Run (Done (no_result i)) s []
  ∨ (∃ msg, invoke self i s =
       Run (Done (no_result i)) (set_pending (Some (InvalidArgument msg)) s) [])
  ∨ (∃ ctx dev c rel, get_context = Some ctx ∧ from_Device self = Some dev ∧
       invoke self i s = protocol self i ctx c rel s).
Proof.
  destruct i; simpl;
    unfold NativeDevice_close, NativeDevice_fillPath, NativeDevice_strokePath,
      NativeDevice_clipPath, NativeDevice_clipStrokePath, NativeDevice_fillText,
      NativeDevice_strokeText, NativeDevice_clipText, NativeDevice_clipStrokeText,
      NativeDevice_ignoreText, NativeDevice_fillShade, NativeDevice_fillImage,
      NativeDevice_fillImageMask, NativeDevice_clipImageMask, NativeDevice_popClip,
      NativeDevice_beginLayer, NativeDevice_endLayer, NativeDevice_beginMask,
      NativeDevice_endMask, NativeDevice_beginGroup, NativeDevice_endGroup,
      NativeDevice_beginTile, NativeDevice_endTile, from_jfloatArray;
    (destruct get_context as [ctx|]; [|left; reflexivity]);
    (destruct (from_Device self) as [dev|]; [|left; reflexivity]).
  all: repeat match goal with
    | |- context [match ?x with Some _ => _ | None => _ end] =>
        lazymatch x with
        | context [match _ with _ => _ end] => fail
        | _ => destruct x eqn:?
        end
    | |- context [if decide ?P then _ else _] => destruct (decide P)
    end.
  all: try (left; reflexivity).
  all: try (right; left; eexists; reflexivity).
  all: right; right; exists ctx, dev; give_call; split; [reflexivity|split; [reflexivity|]].
  all: same_run.
Qed.

Ltac unfold_entry :=
  unfold invoke, NativeDevice_close, NativeDevice_fillPath, NativeDevice_strokePath,
    NativeDevice_clipPath, NativeDevice_clipStrokePath, NativeDevice_fillText,
    NativeDevice_strokeText, NativeDevice_clipText, NativeDevice_clipStrokeText,
    NativeDevice_ignoreText, NativeDevice_fillShade, NativeDevice_fillImage,
    NativeDevice_fillImageMask, NativeDevice_clipImageMask, NativeDevice_popClip,
    NativeDevice_beginLayer, NativeDevice_endLayer, NativeDevice_beginMask,
    NativeDevice_endMask, NativeDevice_beginGroup, NativeDevice_endGroup,
    NativeDevice_beginTile, NativeDevice_endTile.

(** ** Stale devices *)

(** C8: on a stale device (no context, or no fitz device behind [self])
    every entry point returns at once: the state is left as it was, so no
    exception is raised, and nothing is called, neither lock nor fitz. *)
Theorem stale_device_noop self i s :
  stale self -> invoke self i s = Run (Done (no_result i)) s [].
Proof.
  intros [Hctx | Hdev]; destruct i; unfold_entry.
  all: try (rewrite Hctx; reflexivity).
  all: rewrite Hdev; destruct get_context; reflexivity.
Qed.

(** ** Locking *)

Lemma count_released (p : @event fz_matrix fz_rect fz_color_params -> bool) rel :
  (∀ j n, p (EvReleaseStringUTFChars j n) = false) -> count p (released rel) = 0%nat.
Proof. intros Hp. destruct rel as [[j n]|]; unfold count; simpl; [rewrite Hp|]; reflexivity. Qed.

Lemma In_released (e : @event fz_matrix fz_rect fz_color_params) rel :
  In e (released rel) -> ∃ j n, e = EvReleaseStringUTFChars j n.
Proof. destruct rel as [[j n]|]; simpl; [intros [<- | []]; eauto | intros []]. Qed.

Lemma count_app (p : @event fz_matrix fz_rect fz_color_params -> bool) l1 l2 :
  count p (l1 ++ l2) = (count p l1 + count p l2)%nat.
Proof. unfold count. rewrite List.filter_app, length_app. reflexivity. Qed.

(** C1: when the lock taken by [lockNativeDevice] succeeded, the entry
    point goes on to the fitz call and then calls the unlock function of the
    same handle, exactly once and as the last thing before it returns; it
    does so whatever the fitz call did, return or throw. *)
Theorem unlock_once_after_lock self i s a :
  In (EvLock a 0) (events (invoke self i s)) ->
  ∃ c rel,
    events (invoke self i s) = EvLock a 0 :: EvBackend c :: released rel ++ [EvUnlock a] ∧
    count is_unlock (events (invoke self i s)) = 1%nat ∧
    outcome (invoke self i s) = Done (result_of i (fitz c)).
Proof.
  intros Hin.
  destruct (invoke_cases self i s) as [E | [(msg & E) | (ctx & dev & c & rel & _ & _ & E)]];
    rewrite E in *; simpl in Hin; try contradiction.
  pose proof (protocol_runs self i ctx c rel s) as Hrun.
  inversion Hrun as [f Hl0 Hf | Hl Hf | a' k e s1 Hk Hl Hex Hp Hf | a' s1 s2 Ha Hl Hu Hf];
    rewrite <- Hf in *; simpl in Hin.
  - contradiction.
  - destruct Hin as [Hin | Hin]; [discriminate|].
    apply In_released in Hin as (j & n & Hin). discriminate.
  - destruct Hin as [Hin | []]. injection Hin as -> ->. contradiction.
  - destruct Hin as [Hin | [Hin | Hin]]; [|discriminate|].
    + injection Hin as ->. exists c, rel. cbn [events outcome].
      split; [reflexivity|]. split; [|reflexivity].
      change (EvLock a 0 :: EvBackend c :: released rel ++ [EvUnlock a])
        with ([EvLock a 0; EvBackend c] ++ released rel ++ [EvUnlock a])%list.
      rewrite !count_app, count_released by reflexivity. reflexivity.
    + apply in_app_or in Hin as [Hin | [Hin | []]]; [|discriminate].
      apply In_released in Hin as (j & n & Hin). discriminate.
Qed.

(** ** Argument checks *)

(** C2, as the code has it: on a device that is not stale, an entry point
    whose required resource argument is missing raises an [InvalidArgument]
    naming the first missing one, and calls nothing: no lock, no fitz. *)
Theorem missing_argument_rejected self i s ctx dev p rest :
  get_context = Some ctx -> from_Device self = Some dev ->
  missing_arguments i = p :: rest ->
  invoke self i s =
    Run (Done (no_result i))
        (set_pending (Some (InvalidArgument (p ++ " must not be null"))) s) [].
Proof.
  intros Hctx Hdev Hmiss. destruct i; unfold_entry; rewrite Hctx, Hdev;
    simpl in Hmiss; try discriminate.
  all: repeat match type of Hmiss with
    | context [absent _ ?x] => destruct x; simpl in Hmiss
    end; try discriminate.
  all: injection Hmiss as <- _; reflexivity.
Qed.

(** C3, as the code has it: on a device that is not stale, an entry point
    given a color array whose length is not the channel count of the color
    space (the fixed maximum when there is none) raises an
    [InvalidArgument] and calls nothing. *)
Theorem color_length_mismatch_rejected self i s ctx dev jcs a :
  get_context = Some ctx -> from_Device self = Some dev ->
  color_argument i = Some (jcs, Some a) ->
  Z.of_nat (length a) ≠ expected_channels ctx jcs ->
  ∃ msg, invoke self i s =
    Run (Done (no_result i)) (set_pending (Some (InvalidArgument msg)) s) [].
Proof.
  intros Hctx Hdev Hcol Hlen. unfold expected_channels in Hlen.
  destruct i; simpl in Hcol; try discriminate; injection Hcol as -> ->;
    unfold_entry; rewrite Hctx, Hdev.
  all: repeat match goal with
    | |- context [match ?x with Some _ => _ | None => jni_throw_arg _ end] =>
        destruct x; [|eexists; reflexivity]
    end.
  all: unfold from_jfloatArray;
    destruct (decide (Z.of_nat (length a) =
      match from_ColorSpace jcs with Some c => fz_colorspace_n ctx c | None => FZ_MAX_COLORS end));
    [contradiction | eexists; reflexivity].
Qed.

(** ** The value of [beginTile] *)

Lemma invoke_beginTile self jarea jview xstep ystep jctm id s :
  let r := NativeDevice_beginTile self jarea jview xstep ystep jctm id s in
  invoke self (beginTile jarea jview xstep ystep jctm id) s =
    Run (match outcome r with Done v => Done (Some v) | Faulted f => Faulted f end)
        (final r) (events r).
Proof.
  simpl. unfold mbind at 1. unfold M_bind, bind.
  destruct (NativeDevice_beginTile self jarea jview xstep ystep jctm id s) as [[v|f] s1 ev];
    simpl; rewrite ?app_nil_r; reflexivity.
Qed.

Lemma beginTile_protocol self jarea jview xstep ystep jctm id s ctx dev :
  get_context = Some ctx -> from_Device self = Some dev ->
  invoke self (beginTile jarea jview xstep ystep jctm id) s =
    protocol self (beginTile jarea jview xstep ystep jctm id) ctx
      (fz_begin_tile_id ctx dev (from_Rect jarea) (from_Rect jview) xstep ystep
         (from_Matrix jctm) id) None s.
Proof.
  intros Hctx Hdev. unfold_entry. rewrite Hctx, Hdev. same_run.
Qed.

(** C10: [NativeDevice_beginTile] returns 0 on a stale device, 0 when the
    lock function failed (fitz is then not called), and 0 when the fitz call
    threw; it returns the integer of [fz_begin_tile_id] when that call
    returned. *)
Theorem beginTile_value self jarea jview xstep ystep jctm id s :
  (stale self ->
     NativeDevice_beginTile self jarea jview xstep ystep jctm id s = Run (Done 0) s []) ∧
  (∀ ctx dev, get_context = Some ctx -> from_Device self = Some dev ->
     let r := NativeDevice_beginTile self jarea jview xstep ystep jctm id s in
     let c := fz_begin_tile_id ctx dev (from_Rect jarea) (from_Rect jview) xstep ystep
                (from_Matrix jctm) id in
     (∀ a k, In (EvLock a k) (events r) -> k ≠ 0 ->
        outcome r = Done 0 ∧ ¬ In (EvBackend c) (events r)) ∧
     (In (EvBackend c) (events r) ->
        outcome r = Done (match fitz c with fz_returns t => t | fz_throws _ => 0 end))).
Proof.
  split.
  - intros [Hctx | Hdev]; unfold NativeDevice_beginTile.
    + rewrite Hctx. reflexivity.
    + rewrite Hdev. destruct get_context; reflexivity.
  - intros ctx dev Hctx Hdev r c.
    pose proof (invoke_beginTile self jarea jview xstep ystep jctm id s) as Hinv.
    rewrite (beginTile_protocol _ _ _ _ _ _ _ _ _ _ Hctx Hdev) in Hinv.
    fold r c in Hinv.
    pose proof (protocol_runs self (beginTile jarea jview xstep ystep jctm id) ctx c None s)
      as Hrun.
    rewrite Hinv in Hrun. clear Hinv.
    destruct r as [o s' ev]. simpl in *.
    inversion Hrun; subst; simpl in *.
    all: match goal with
      | Ho : _ = match ?x with Done _ => _ | Faulted _ => _ end |- _ =>
          destruct x as [v|f0]; try discriminate Ho
      end.
    all: split; [intros a0 k0 Hin Hk0 | intros Hin]; simpl in *.
    all: repeat match goal with
      | Hor : _ ∨ _ |- _ => destruct Hor
      | Hfalse : False |- _ => destruct Hfalse
      end; try discriminate.
    all: try match goal with
      | Heq : EvLock _ _ = EvLock _ _ |- _ => injection Heq as ? ?; subst
      end; try congruence.
    all: try (destruct (fitz c); simpl in *; congruence).
    all: split; [congruence | intros [? | []]; discriminate].
Qed.

(** ** Faults

    The faults of this model are a JNI call on a reference that denotes no
    object and an access to a handle address at which nothing is
    allocated.  In a state where [self] denotes an object whose
    [nativeInfo] is 0 or the address of an allocated handle, neither
    happens in an entry point. *)

Lemma lockNativeDevice_returns self s :
  well_formed self s -> ∃ v, outcome (lockNativeDevice self s) = Done v.
Proof.
  intros (r & ob & -> & Hob & Hinfo).
  unfold lockNativeDevice. unfold_run. rewrite Hob. simpl.
  destruct (instanceof_NativeDevice ob); simpl; [|eauto].
  rewrite Hob. simpl. destruct (Z.eqb_spec (nativeInfo ob) 0) as [Hz | Hz]; simpl; [eauto|].
  rewrite Hob. simpl. destruct Hinfo as [Hinfo | [h Hh]]; [contradiction|].
  rewrite Hh. simpl. rewrite lookup_insert_eq. simpl.
  destruct (lock_code (lock h) (set_object (nativeResource ob) h)) as [[k h'] [e|]]; simpl;
    destruct (k =? 0); simpl; eauto.
Qed.

Lemma invoke_returns self i s :
  well_formed self s -> ∃ v, outcome (invoke self i s) = Done v.
Proof.
  intros Hwf.
  destruct (invoke_cases self i s) as [E | [(msg & E) | (ctx & dev & c & rel & _ & _ & E)]];
    rewrite E; simpl; eauto.
  destruct (lockNativeDevice_returns self s Hwf) as (v & Hv).
  pose proof (protocol_runs self i ctx c rel s) as Hrun.
  inversion Hrun as [f Hl Hf | Hl Hf | a' k' e s1 Hk' Hl Hex Hp Hf | a' s1 s2 Ha Hl Hu Hf];
    simpl; eauto.
  rewrite Hl in Hv. discriminate.
Qed.

(** ** What three entry points do with their arguments *)

(** [beginGroup] never reads its color space argument. *)
Lemma beginGroup_ignores_colorspace_argument self jrect jcs jcs' isolated knockout blendmode alpha :
  NativeDevice_beginGroup self jrect jcs isolated knockout blendmode alpha =
  NativeDevice_beginGroup self jrect jcs' isolated knockout blendmode alpha.
Proof. reflexivity. Qed.

Lemma beginGroup_protocol self jrect jcs isolated knockout blendmode alpha s ctx dev :
  get_context = Some ctx -> from_Device self = Some dev ->
  invoke self (beginGroup jrect jcs isolated knockout blendmode alpha) s =
    protocol self (beginGroup jrect jcs isolated knockout blendmode alpha) ctx
      (fz_begin_group ctx dev (from_Rect jrect) (from_ColorSpace self)
         isolated knockout blendmode alpha) None s.
Proof.
  intros Hctx Hdev. unfold_entry. rewrite Hctx, Hdev. same_run.
Qed.

(** With a null name, [beginLayer] follows the protocol with the
    indeterminate [name]. *)
Lemma beginLayer_null_protocol self s ctx dev :
  get_context = Some ctx -> from_Device self = Some dev ->
  invoke self (beginLayer None) s =
    protocol self (beginLayer None) ctx (fz_begin_layer ctx dev Indeterminate)
      (Some (None, Indeterminate)) s.
Proof.
  intros Hctx Hdev. unfold_entry. rewrite Hctx, Hdev. same_run.
Qed.

(** ** The finalizer *)

(** With a handle allocated at the address in [nativeInfo], the finalizer
    drops the pixmap of the handle and frees the handle. *)
Lemma finalize_releases r s ctx ob h :
  get_context = Some ctx ->
  objects (Device_finalize (Some r) s) !! r = Some ob -> nativeInfo ob ≠ 0 ->
  heap (Device_finalize (Some r) s) !! nativeInfo ob = Some h ->
  NativeDevice_finalize (Some r) s =
    Run (Done tt)
        (set_heap (delete (nativeInfo ob) (heap (Device_finalize (Some r) s)))
                  (Device_finalize (Some r) s))
        [EvDevice_finalize (Some r); EvDropPixmap (pixmap h); EvFree (nativeInfo ob)].
Proof.
  intros Hctx Hob Hz Hh. unfold NativeDevice_finalize, fz_drop_pixmap, fz_free.
  rewrite Hctx. unfold_run. rewrite Hob. simpl.
  apply Z.eqb_neq in Hz. rewrite Hz. simpl. rewrite Hh. reflexivity.
Qed.

(** The finalizer itself writes no field of a Java object: [nativeInfo]
    keeps the address of the handle it freed. *)
Lemma finalize_keeps_fields self s :
  objects (final (NativeDevice_finalize self s)) =
  objects (match get_context with Some _ => Device_finalize self s | None => s end).
Proof.
  unfold NativeDevice_finalize, fz_drop_pixmap, fz_free.
  destruct get_context; [|reflexivity].
  unfold_run. repeat run_step; reflexivity.
Qed.

(** Finalized once with a handle, then again with the fields as the first
    run left them: the second run reads the freed handle. *)
Lemma finalize_again_reads_freed_handle r s ctx ob h :
  get_context = Some ctx ->
  (∀ s', Device_finalize (Some r) s' = s') ->
  objects s !! r = Some ob -> nativeInfo ob ≠ 0 -> heap s !! nativeInfo ob = Some h ->
  outcome (NativeDevice_finalize (Some r) (final (NativeDevice_finalize (Some r) s)))
  = Faulted (BadPointer (nativeInfo ob)).
Proof.
  intros Hctx Hsuper Hob Hz Hh.
  rewrite (finalize_releases r s ctx ob h Hctx); rewrite ?Hsuper; try assumption.
  simpl. unfold NativeDevice_finalize, fz_drop_pixmap, fz_free.
  rewrite Hctx. unfold_run. rewrite Hsuper. simpl. rewrite Hob. simpl.
  apply Z.eqb_neq in Hz. rewrite Hz. simpl. rewrite lookup_delete_eq. reflexivity.
Qed.

End Properties.

(** * The properties on the test doubles *)

(** ** The scenario of the device protocol

    [fillPath] on the draw device: a null path, a color array of the wrong
    length, a good call, a failing lock, a failing backend. *)

Example fill_null_path :
  invoke (H:=live_device) self0 (fillPath None false None gray (Some [0.5%float]) 1%float 0)
    draw_device
  = Run (Done None) (set_pending (Some (InvalidArgument "path must not be null")) draw_device) [].
Proof. reflexivity. Qed.

Example fill_three_channels_on_gray :
  invoke (H:=live_device) self0
    (fillPath a_path false None gray (Some [1%float; 0%float; 0%float]) 1%float 0) draw_device
  = Run (Done None)
      (set_pending
         (Some (InvalidArgument "color array length does not match the channel count"))
         draw_device) [].
Proof. reflexivity. Qed.

Example fill_good :
  let r := invoke (H:=live_device) self0 good_fill draw_device in
  events r =
    [EvLock 100 0;
     EvBackend (fz_fill_path ctx0 dev0 (NativePtr 3) false tt (Some (NativePtr 4))
                  [0.5%float] 1%float tt);
     EvUnlock 100] ∧
  pending (final r) = None ∧ outcome r = Done None.
Proof. vm_compute. repeat split. Qed.

Example fill_lock_fails :
  let r := invoke (H:=failing_lock) self0 good_fill draw_device in
  events r = [EvLock 100 1] ∧ pending (final r) = Some (LockFailure "lock failed").
Proof. vm_compute. repeat split. Qed.

Example fill_backend_fails :
  let r := invoke (H:=failing_backend) self0 good_fill draw_device in
  count is_unlock (events r) = 1%nat ∧
  last (events r) = Some (EvUnlock 100) ∧
  pending (final r) =
    Some (BackendFailure {| fz_caught := 2; fz_caught_message := "malformed path" |}).
Proof. vm_compute. repeat split. Qed.

(** ** Instances of the theorems *)

Lemma unlock_once_after_lock_witness :
  In (EvLock 100 0) (events (invoke (H:=failing_backend) self0 good_fill draw_device)) ∧
  ∃ c rel,
    events (invoke (H:=failing_backend) self0 good_fill draw_device)
      = EvLock 100 0 :: EvBackend c :: released rel ++ [EvUnlock 100] ∧
    count is_unlock (events (invoke (H:=failing_backend) self0 good_fill draw_device)) = 1%nat ∧
    outcome (invoke (H:=failing_backend) self0 good_fill draw_device)
      = Done (result_of good_fill (fitz (Externals:=failing_backend) c)).
Proof.
  split; [vm_compute; left; reflexivity|].
  apply (unlock_once_after_lock (H:=failing_backend) self0 good_fill draw_device 100).
  vm_compute. left. reflexivity.
Defined.

Lemma list_device_no_handle : no_handle self0 list_device.
Proof.
  exists 1%positive,
    {| instanceof_NativeDevice := true; nativeInfo := 0; nativeResource := None |}.
  split; [reflexivity|]. split; [reflexivity|]. right. reflexivity.
Defined.

Lemma stale_device_noop_witness :
  stale (H:=stale_device) self0 ∧
  invoke (H:=stale_device) self0 (fillPath None false None gray None 1%float 0) draw_device
    = Run (Done None) draw_device [].
Proof.
  split; [right; reflexivity|].
  apply (stale_device_noop (H:=stale_device)). right. reflexivity.
Defined.

Lemma missing_argument_rejected_witness :
  missing_arguments (H:=live_device) (strokePath a_path None None gray None 1%float 0)
    = ["stroke"] ∧
  invoke (H:=live_device) self0 (strokePath a_path None None gray None 1%float 0) draw_device
    = Run (Done None)
        (set_pending (Some (InvalidArgument "stroke must not be null")) draw_device) [].
Proof.
  split; [reflexivity|].
  apply (missing_argument_rejected (H:=live_device) self0
           (strokePath a_path None None gray None 1%float 0) draw_device ctx0 dev0 "stroke" []);
    reflexivity.
Defined.

Lemma color_length_mismatch_rejected_witness :
  Z.of_nat (length [1%float; 0%float; 0%float])
    ≠ expected_channels (H:=live_device) ctx0 gray ∧
  ∃ msg,
    invoke (H:=live_device) self0
      (beginMask None true gray (Some [1%float; 0%float; 0%float]) 0) draw_device
    = Run (Done None) (set_pending (Some (InvalidArgument msg)) draw_device) [].
Proof.
  split; [vm_compute; discriminate|].
  apply (color_length_mismatch_rejected (H:=live_device) self0
           (beginMask None true gray (Some [1%float; 0%float; 0%float]) 0) draw_device
           ctx0 dev0 gray [1%float; 0%float; 0%float]);
    [reflexivity | reflexivity | reflexivity | vm_compute; discriminate].
Defined.

(** ** Where the code departs from the stated behaviour *)

(** C2 as stated fails on a stale device: the path is missing, and the
    entry point returns without raising anything. *)
Lemma missing_path_on_stale_device :
  missing_arguments (H:=stale_device) (fillPath None false None gray None 1%float 0)
    = ["path"] ∧
  ¬ ∃ msg,
      pending (final (invoke (H:=stale_device) self0
                        (fillPath None false None gray None 1%float 0) draw_device))
      = Some (InvalidArgument msg).
Proof.
  split; [reflexivity|]. intros (msg & Hp). vm_compute in Hp. discriminate.
Qed.

(** C3 as stated fails on a stale device: three values for the one channel
    of gray, and the entry point returns without raising anything. *)
Lemma color_mismatch_on_stale_device :
  Z.of_nat (length [1%float; 0%float; 0%float])
    ≠ expected_channels (H:=stale_device) ctx0 gray ∧
  ¬ ∃ msg,
      pending (final (invoke (H:=stale_device) self0
                        (fillPath a_path false None gray (Some [1%float; 0%float; 0%float])
                           1%float 0) draw_device))
      = Some (InvalidArgument msg).
Proof.
  split; [vm_compute; discriminate|]. intros (msg & Hp). vm_compute in Hp. discriminate.
Qed.

(** C5: [beginGroup] hands to [fz_begin_group] the color space resolved
    from [self], not the one resolved from its color space argument: with
    the RGB color space as argument, the call is made with none. *)
Theorem beginGroup_colorspace_of_self :
  from_ColorSpace (Externals:=live_device) rgb = Some (NativePtr 6) ∧
  from_ColorSpace (Externals:=live_device) self0 = None ∧
  events (NativeDevice_beginGroup (H:=live_device) self0 None rgb true false 0 1%float
            list_device)
  = [EvBackend (fz_begin_group ctx0 dev0 tt None true false 0 1%float)].
Proof. vm_compute. repeat split. Qed.

(** C6: the finalizer leaves the address of the freed handle in
    [nativeInfo]; run a second time it reads the handle at that address,
    which is no longer allocated, to drop its pixmap again.  Were the
    storage in use again, it would drop the pixmap found there and free
    it. *)
Theorem finalize_twice_releases_again :
  let r1 := NativeDevice_finalize (H:=live_device) self0 draw_device in
  let r2 := NativeDevice_finalize (H:=live_device) self0 (final r1) in
  let reused := set_heap {[ 100 := handle0 ]} (final r1) in
  events r1 = [EvDevice_finalize self0; EvDropPixmap (Some (NativePtr 9)); EvFree 100] ∧
  heap (final r1) !! 100 = None ∧
  nativeInfo <$> (objects (final r1) !! 1%positive) = Some 100 ∧
  outcome r2 = Faulted (BadPointer 100) ∧
  events (NativeDevice_finalize (H:=live_device) self0 reused)
  = [EvDevice_finalize self0; EvDropPixmap (Some (NativePtr 9)); EvFree 100].
Proof. vm_compute. repeat split. Qed.

(** C9: with a null name, [beginLayer] passes the unassigned [name] to
    [fz_begin_layer] and to [ReleaseStringUTFChars]; it is indeterminate,
    not [NULL]. *)
Theorem beginLayer_null_name_indeterminate :
  events (NativeDevice_beginLayer (H:=live_device) self0 None draw_device)
  = [EvLock 100 0;
     EvBackend (fz_begin_layer ctx0 dev0 Indeterminate);
     EvReleaseStringUTFChars None Indeterminate;
     EvUnlock 100].
Proof. vm_compute. reflexivity. Qed.

Example beginLayer_named :
  events (NativeDevice_beginLayer (H:=live_device) self0 (Some 8%positive) draw_device)
  = [EvLock 100 0;
     EvBackend (fz_begin_layer ctx0 dev0 (CChars "layer"));
     EvReleaseStringUTFChars (Some 8%positive) (CChars "layer");
     EvUnlock 100].
Proof. vm_compute. reflexivity. Qed.

(** [beginTile] on the test doubles: the token of fitz, and 0 otherwise. *)
Example beginTile_values :
  outcome (NativeDevice_beginTile (H:=live_device) self0 None None 1%float 1%float None 42
             draw_device) = Done 7 ∧
  outcome (NativeDevice_beginTile (H:=failing_backend) self0 None None 1%float 1%float None 42
             draw_device) = Done 0 ∧
  outcome (NativeDevice_beginTile (H:=failing_lock) self0 None None 1%float 1%float None 42
             draw_device) = Done 0 ∧
  outcome (NativeDevice_beginTile (H:=stale_device) self0 None None 1%float 1%float None 42
             draw_device) = Done 0.
Proof. vm_compute. repeat split. Qed.

(** * Further properties: the helpers, the error channel, sequences of calls *)

Section Coverage.

Context {fz_matrix fz_rect fz_color_params : Type}.
Context `{!@Externals fz_matrix fz_rect fz_color_params}.

(** ** The parts of a fitz call *)

Definition call_context (c : @backend_call fz_matrix fz_rect fz_color_params) : fz_context :=
  match c with
  | fz_close_device ctx _ | fz_fill_path ctx _ _ _ _ _ _ _ _
  | fz_stroke_path ctx _ _ _ _ _ _ _ _ | fz_clip_path ctx _ _ _ _ _
  | fz_clip_stroke_path ctx _ _ _ _ _ | fz_fill_text ctx _ _ _ _ _ _ _
  | fz_stroke_text ctx _ _ _ _ _ _ _ _ | fz_clip_text ctx _ _ _ _
  | fz_clip_stroke_text ctx _ _ _ _ _ | fz_ignore_text ctx _ _ _
  | fz_fill_shade ctx _ _ _ _ _ | fz_fill_image ctx _ _ _ _ _
  | fz_fill_image_mask ctx _ _ _ _ _ _ _ | fz_clip_image_mask ctx _ _ _ _
  | fz_pop_clip ctx _ | fz_begin_layer ctx _ _ | fz_end_layer ctx _
  | fz_begin_mask ctx _ _ _ _ _ _ | fz_end_mask ctx _
  | fz_begin_group ctx _ _ _ _ _ _ _ | fz_end_group ctx _
  | fz_begin_tile_id ctx _ _ _ _ _ _ _ | fz_end_tile ctx _ => ctx
  end.

Definition call_device (c : @backend_call fz_matrix fz_rect fz_color_params) : fz_device :=
  match c with
  | fz_close_device _ dev | fz_fill_path _ dev _ _ _ _ _ _ _
  | fz_stroke_path _ dev _ _ _ _ _ _ _ | fz_clip_path _ dev _ _ _ _
  | fz_clip_stroke_path _ dev _ _ _ _ | fz_fill_text _ dev _ _ _ _ _ _
  | fz_stroke_text _ dev _ _ _ _ _ _ _ | fz_clip_text _ dev _ _ _
  | fz_clip_stroke_text _ dev _ _ _ _ | fz_ignore_text _ dev _ _
  | fz_fill_shade _ dev _ _ _ _ | fz_fill_image _ dev _ _ _ _
  | fz_fill_image_mask _ dev _ _ _ _ _ _ | fz_clip_image_mask _ dev _ _ _
  | fz_pop_clip _ dev | fz_begin_layer _ dev _ | fz_end_layer _ dev
  | fz_begin_mask _ dev _ _ _ _ _ | fz_end_mask _ dev
  | fz_begin_group _ dev _ _ _ _ _ _ | fz_end_group _ dev
  | fz_begin_tile_id _ dev _ _ _ _ _ _ | fz_end_tile _ dev => dev
  end.

(** The scissor rectangle of a clip call. *)
Definition call_scissor (c : @backend_call fz_matrix fz_rect fz_color_params) : option fz_rect :=
  match c with
  | fz_clip_path _ _ _ _ _ scissor | fz_clip_stroke_path _ _ _ _ _ scissor
  | fz_clip_text _ _ _ _ scissor | fz_clip_stroke_text _ _ _ _ _ scissor
  | fz_clip_image_mask _ _ _ _ scissor => Some scissor
  | _ => None
  end.

Definition is_release (e : @event fz_matrix fz_rect fz_color_params) : bool :=
  match e with EvReleaseStringUTFChars _ _ => true | _ => false end.

(** ** A caller: entry points called one after the other on one device *)

Fixpoint invoke_all (self : jobject) (l : list invocation) : M (list (option Z)) :=
  match l with
  | [] => ret []
  | i :: l' =>
      v ← invoke self i;
      vs ← invoke_all self l';
      ret (v :: vs)
  end.

(** The lock discipline of an event log: a lock is taken only while none is
    held, an unlock releases the handle that is held, and [held] says what
    is held before the log starts; nothing is held when it ends. *)
Fixpoint lock_balanced (held : option Z)
    (l : list (@event fz_matrix fz_rect fz_color_params)) : bool :=
  match l with
  | [] => match held with None => true | Some _ => false end
  | EvLock a k :: l' =>
      match held with
      | None => lock_balanced (if k =? 0 then Some a else None) l'
      | Some _ => false
      end
  | EvUnlock a :: l' =>
      match held with
      | Some b => (a =? b) && lock_balanced None l'
      | None => false
      end
  | _ :: l' => lock_balanced held l'
  end.


(** ** The state an entry point leaves *)

Lemma objects_raised e s : objects (raised e s) = objects s.
Proof. destruct e; reflexivity. Qed.

Lemma pending_raised_None s : pending (raised None s) = pending s.
Proof. reflexivity. Qed.

(** What [lockNativeDevice] leaves: the Java objects as they were, every
    handle still allocated, and every handle but the one of [self] as it
    was. *)
Lemma lock_frame self s :
  objects (final (lockNativeDevice self s)) = objects s ∧
  (∀ b, is_Some (heap s !! b) -> is_Some (heap (final (lockNativeDevice self s)) !! b)) ∧
  (∀ b, (∀ r ob, self = Some r -> objects s !! r = Some ob -> nativeInfo ob ≠ b) ->
        heap (final (lockNativeDevice self s)) !! b = heap s !! b).
Proof.
  pose proof (lockNativeDevice_run self s) as Hl.
  inversion Hl as [f Hf | Ha | r ob h k h' e -> Hob Hin Hz Hh Hc Hr]; simpl.
  - repeat split; auto.
  - repeat split; auto.
  - rewrite objects_raised, heap_raised. simpl. repeat split.
    + intros b Hb. destruct (decide (nativeInfo ob = b)) as [<- | Hne].
      * rewrite lookup_insert_eq. eauto.
      * rewrite !lookup_insert_ne by assumption. assumption.
    + intros b Hb. specialize (Hb r ob eq_refl Hob).
      rewrite !lookup_insert_ne by assumption. reflexivity.
Qed.

Lemma unlock_frame a s :
  objects (final (unlockNativeDevice a s)) = objects s ∧
  (∀ b, is_Some (heap s !! b) -> is_Some (heap (final (unlockNativeDevice a s)) !! b)) ∧
  (∀ b, a ≠ b -> heap (final (unlockNativeDevice a s)) !! b = heap s !! b).
Proof.
  destruct (decide (a = 0)) as [-> | Ha]; [rewrite unlockNativeDevice_null; auto|].
  destruct (heap s !! a) as [h|] eqn:Hh.
  - rewrite (unlockNativeDevice_run a h s Ha Hh). simpl.
    rewrite objects_raised, heap_raised. simpl. repeat split.
    + intros b Hb. destruct (decide (a = b)) as [<- | Hne].
      * rewrite lookup_insert_eq. eauto.
      * rewrite lookup_insert_ne by assumption. assumption.
    + intros b Hne. rewrite lookup_insert_ne by assumption. reflexivity.
  - unfold unlockNativeDevice. apply Z.eqb_neq in Ha. rewrite Ha. simpl.
    unfold call_unlock, load, mbind, M_bind, bind. rewrite Hh. simpl. auto.
Qed.


(** ** The contract of [lockNativeDevice] and [unlockNativeDevice] *)

(** X1: when [lockNativeDevice] returns, it returns one of three things:
    [NULL] with [*err = 0], nothing called and the state untouched;
    [NULL] with [*err = 1], after a lock call that returned non-zero; or the
    handle of [self] with [*err = 0], after a lock call that returned 0,
    and that handle is allocated. *)
Theorem lockNativeDevice_result self s info err :
  outcome (lockNativeDevice self s) = Done (info, err) ->
  (info = 0 ∧ err = 0 ∧ events (lockNativeDevice self s) = [] ∧
     final (lockNativeDevice self s) = s)
  ∨ (info = 0 ∧ err = 1 ∧
     ∃ a k, a ≠ 0 ∧ k ≠ 0 ∧ events (lockNativeDevice self s) = [EvLock a k])
  ∨ (info ≠ 0 ∧ err = 0 ∧ events (lockNativeDevice self s) = [EvLock info 0] ∧
     is_Some (heap (final (lockNativeDevice self s)) !! info) ∧
     ∃ r ob, self = Some r ∧ objects s !! r = Some ob ∧ nativeInfo ob = info).
Proof.
  pose proof (lockNativeDevice_run self s) as Hl.
  inversion Hl as [f Hf | Ha | r ob h k h' e -> Hob Hin Hz Hh Hc Hr]; simpl.
  - discriminate.
  - intros [= <- <-]. left. auto.
  - destruct (Z.eqb_spec k 0) as [-> | Hk]; intros [= <- <-].
    + right. right. rewrite heap_raised. simpl. rewrite lookup_insert_eq.
      repeat split; eauto.
    + right. left. repeat split. eauto.
Qed.

(** X2: after [lockNativeDevice] has returned a handle, [unlockNativeDevice]
    on it does not fault, calls the unlock function once, and leaves the
    handle allocated. *)
Theorem unlock_after_lock self s info :
  outcome (lockNativeDevice self s) = Done (info, 0) -> info ≠ 0 ->
  outcome (unlockNativeDevice info (final (lockNativeDevice self s))) = Done tt ∧
  events (unlockNativeDevice info (final (lockNativeDevice self s))) = [EvUnlock info] ∧
  is_Some (heap (final (unlockNativeDevice info (final (lockNativeDevice self s)))) !! info).
Proof.
  intros Hlock Hinfo. revert Hlock.
  pose proof (lockNativeDevice_run self s) as Hl.
  inversion Hl as [f Hf | Ha | r ob h k h' e -> Hob Hin Hz Hh Hc Hr]; simpl.
  - discriminate.
  - intros [= <-]. contradiction.
  - destruct (Z.eqb_spec k 0) as [-> | Hk]; intros [= <-].
    erewrite unlockNativeDevice_run;
      [|assumption|rewrite heap_raised; apply lookup_insert_eq].
    simpl. rewrite heap_raised. simpl. rewrite lookup_insert_eq. eauto.
Qed.


(** ** The runs of an entry point *)

Ltac entry_unfold :=
  unfold invoke, NativeDevice_close, NativeDevice_fillPath, NativeDevice_strokePath,
    NativeDevice_clipPath, NativeDevice_clipStrokePath, NativeDevice_fillText,
    NativeDevice_strokeText, NativeDevice_clipText, NativeDevice_clipStrokeText,
    NativeDevice_ignoreText, NativeDevice_fillShade, NativeDevice_fillImage,
    NativeDevice_fillImageMask, NativeDevice_clipImageMask, NativeDevice_popClip,
    NativeDevice_beginLayer, NativeDevice_endLayer, NativeDevice_beginMask,
    NativeDevice_endMask, NativeDevice_beginGroup, NativeDevice_endGroup,
    NativeDevice_beginTile, NativeDevice_endTile, from_jfloatArray.

Ltac run_unfold :=
  unfold IsInstanceOf, GetLongField, GetObjectField, call_lock, call_unlock, call_fitz,
    load, store, throw, emit, update, raise_fault, jni_throw_arg, jni_rethrow,
    mbind, M_bind, bind, ret; simpl.

Ltac case_step :=
  match goal with
  | |- context [match ?x with _ => _ end] =>
      lazymatch x with
      | context [match _ with _ => _ end] => fail
      | context [if _ then _ else _] => fail
      | _ => destruct x eqn:?
      end
  | |- context [if ?x then _ else _] =>
      lazymatch x with
      | context [match _ with _ => _ end] => fail
      | context [if _ then _ else _] => fail
      | _ => destruct x eqn:?
      end
  end; simpl in *.

(** The fitz call and the release in the goal, as witnesses. *)
Ltac pick_call :=
  lazymatch goal with
  | |- context [mbind ?K (ret (1, ?l))] =>
      let body := eval cbv beta iota in (K (1, l)) in
      lazymatch body with
      | context [call_fitz ?c] => exists c, None
      end
  | |- context [call_fitz ?c] =>
      lazymatch goal with
      | |- context [emit (EvReleaseStringUTFChars ?j ?n)] => exists c, (Some (j, n))
      | _ => exists c, None
      end
  end.

Ltac protocol_same :=
  unfold protocol, void, fz_try, emit_all, released; run_unfold;
  repeat case_step; rewrite ?app_nil_r; reflexivity.

(** What an entry point hands to fitz: the context of the thread, the
    device behind [self], the infinite rectangle as scissor of a clip, and
    in [beginLayer] the name that the [fz_always] block then releases. *)
Definition call_facts (self : jobject) (i : invocation) (ctx : fz_context) (dev : fz_device)
    (c : backend_call) (rel : option (jobject * c_string)) : Prop :=
  get_context = Some ctx ∧ from_Device self = Some dev ∧
  call_context c = ctx ∧ call_device c = dev ∧
  (∀ r, call_scissor c = Some r -> r = fz_infinite_rect) ∧
  match i with
  | beginLayer jname => ∃ n, rel = Some (jname, n) ∧ c = fz_begin_layer ctx dev n
  | _ => rel = None
  end.

Lemma invoke_cases_call self i s :
  invoke self i s = Run (Done (no_result i)) s []
  ∨ (∃ msg, invoke self i s =
       Run (Done (no_result i)) (set_pending (Some (InvalidArgument msg)) s) [])
  ∨ (∃ ctx dev c rel, call_facts self i ctx dev c rel ∧
       invoke self i s = protocol self i ctx c rel s).
Proof.
  destruct i; simpl; entry_unfold;
    (destruct get_context as [ctx|] eqn:Hctx; [|left; reflexivity]);
    (destruct (from_Device self) as [dev|] eqn:Hdev; [|left; reflexivity]).
  all: repeat match goal with
    | |- context [match ?x with Some _ => _ | None => _ end] =>
        lazymatch x with
        | context [match _ with _ => _ end] => fail
        | _ => destruct x eqn:?
        end
    | |- context [if decide ?P then _ else _] => destruct (decide P)
    end.
  all: try (left; reflexivity).
  all: try (right; left; eexists; reflexivity).
  all: right; right; exists ctx, dev; pick_call; split; [|protocol_same].
  all: unfold call_facts; rewrite ?Hctx, ?Hdev; simpl; repeat split; eauto.
  all: intros r [= <-]; reflexivity.
Qed.


(** The ways an entry point can run: it stops in its checks; it raises an
    [InvalidArgument]; [lockNativeDevice] faults; or it makes its fitz call,
    with no handle, or not at all because the lock failed, or between a
    lock and an unlock. *)
Inductive entry_run (self : jobject) (i : invocation) (s : JVM) :
    run (option Z) -> Prop :=
| entry_stopped : entry_run self i s (Run (Done (no_result i)) s [])
| entry_rejected msg :
    entry_run self i s
      (Run (Done (no_result i)) (set_pending (Some (InvalidArgument msg)) s) [])
| entry_faulted f : entry_run self i s (Run (Faulted f) s [])
| entry_unlocked ctx dev c rel :
    call_facts self i ctx dev c rel ->
    lockNativeDevice self s = Run (Done (0, 0)) s [] ->
    entry_run self i s
      (Run (Done (result_of i (fitz c))) (caught (fitz c) s) (EvBackend c :: released rel))
| entry_lock_failed a k s1 :
    k ≠ 0 ->
    lockNativeDevice self s = Run (Done (0, 1)) s1 [EvLock a k] ->
    entry_run self i s (Run (Done (no_result i)) s1 [EvLock a k])
| entry_locked ctx dev c rel a s1 s2 :
    call_facts self i ctx dev c rel -> a ≠ 0 ->
    lockNativeDevice self s = Run (Done (a, 0)) s1 [EvLock a 0] ->
    unlockNativeDevice a s1 = Run (Done tt) s2 [EvUnlock a] ->
    entry_run self i s
      (Run (Done (result_of i (fitz c))) (caught (fitz c) s2)
           (EvLock a 0 :: EvBackend c :: released rel ++ [EvUnlock a])).

Lemma invoke_runs self i s : entry_run self i s (invoke self i s).
Proof.
  destruct (invoke_cases_call self i s)
    as [E | [(msg & E) | (ctx & dev & c & rel & Hfacts & E)]]; rewrite E.
  - constructor.
  - constructor.
  - pose proof (protocol_runs self i ctx c rel s) as Hrun.
    inversion Hrun as [f Hl Hf | Hl Hf | a k e s1 Hk Hl Hex Hp Hf | a s1 s2 Ha Hl Hu Hf].
    + constructor.
    + eapply entry_unlocked; eassumption.
    + eapply entry_lock_failed; eassumption.
    + eapply entry_locked; eassumption.
Qed.

Lemma lock_returns_own_handle self s a s1 ev :
  lockNativeDevice self s = Run (Done (a, 0)) s1 ev -> a ≠ 0 ->
  ∃ r ob, self = Some r ∧ objects s !! r = Some ob ∧ nativeInfo ob = a.
Proof.
  intros Hrun Ha. pose proof (lockNativeDevice_run self s) as Hl. rewrite Hrun in Hl.
  inversion Hl as [| | r ob h k h' e -> Hob Hin Hz Hh Hc Hk]; subst; [contradiction|].
  destruct (k =? 0); [|discriminate]. injection Hk as <-. eauto.
Qed.

Lemma released_not (p : @event fz_matrix fz_rect fz_color_params -> bool) rel e :
  (∀ j n, p (EvReleaseStringUTFChars j n) = false) -> In e (released rel) -> p e = false.
Proof. intros Hp Hin. apply In_released in Hin as (j & n & ->). apply Hp. Qed.

(** ** The shape of the calls *)

(** X3: the calls of an entry point are none at all, or one fitz call
    (followed in [beginLayer] by the release of the name) that is either
    alone or between a lock that returned 0 and the unlock of the same
    handle, or one lock call that returned non-zero and nothing else.  So
    no entry point calls fitz twice, unlocks what it did not lock, or calls
    fitz after a failed lock. *)
Theorem entry_point_bracket self i s :
  events (invoke self i s) = []
  ∨ (∃ c rel, events (invoke self i s) = EvBackend c :: released rel)
  ∨ (∃ a k, k ≠ 0 ∧ events (invoke self i s) = [EvLock a k])
  ∨ (∃ a c rel, events (invoke self i s)
                = EvLock a 0 :: EvBackend c :: released rel ++ [EvUnlock a]).
Proof.
  pose proof (invoke_runs self i s) as Hrun.
  inversion Hrun; simpl; eauto 10.
Qed.


(** ** What an entry point leaves untouched *)

Lemma objects_caught o s : objects (caught o s) = objects s.
Proof. destruct o; reflexivity. Qed.

Lemma heap_caught o s : heap (caught o s) = heap s.
Proof. destruct o; reflexivity. Qed.

(** X4: no entry point writes a field of a Java object or frees a handle,
    and the only handle it can change is the one [nativeInfo] of [self]
    points to. *)
Theorem entry_points_frame self i s :
  objects (final (invoke self i s)) = objects s ∧
  (∀ b, is_Some (heap s !! b) -> is_Some (heap (final (invoke self i s)) !! b)) ∧
  (∀ b, (∀ r ob, self = Some r -> objects s !! r = Some ob -> nativeInfo ob ≠ b) ->
        heap (final (invoke self i s)) !! b = heap s !! b).
Proof.
  pose proof (invoke_runs self i s) as Hrun.
  inversion Hrun as [ | msg | f | ctx dev c rel Hf Hl | a k s1 Hk Hl
                    | ctx dev c rel a s1 s2 Hf Ha Hl Hu]; simpl.
  - auto.
  - auto.
  - auto.
  - rewrite objects_caught, heap_caught. auto.
  - pose proof (lock_frame self s) as Hlf. rewrite Hl in Hlf. exact Hlf.
  - rewrite objects_caught, heap_caught.
    pose proof (lock_frame self s) as (Ho1 & Hk1 & Hf1). rewrite Hl in Ho1, Hk1, Hf1.
    pose proof (unlock_frame a s1) as (Ho2 & Hk2 & Hf2). rewrite Hu in Ho2, Hk2, Hf2.
    simpl in *. split; [congruence|]. split; [auto|].
    intros b Hb.
    destruct (lock_returns_own_handle self s a s1 _ Hl Ha) as (r & ob & -> & Hob & <-).
    rewrite Hf2 by (exact (Hb r ob eq_refl Hob)). apply Hf1. assumption.
Qed.

(** ** The error channel *)

(** X5: whenever the fitz call of an entry point throws, the entry point
    returns its no-result value with the [BackendFailure] of that error
    pending, whatever the unlock function did in between. *)
Theorem backend_error_surfaced self i s c e :
  In (EvBackend c) (events (invoke self i s)) -> fitz c = fz_throws e ->
  pending (final (invoke self i s)) = Some (BackendFailure e) ∧
  outcome (invoke self i s) = Done (no_result i).
Proof.
  intros Hin Hthrow. pose proof (invoke_runs self i s) as Hrun.
  inversion Hrun as [Hr | msg Hr | f Hr | ctx dev c' rel Hf Hl Hr | a k s1 Hk Hl Hr
                    | ctx dev c' rel a s1 s2 Hf Ha Hl Hu Hr];
    rewrite <- Hr in Hin; simpl in Hin; try contradiction.
  - destruct Hin as [[= ->] | Hin].
    + rewrite Hthrow. simpl. auto.
    + apply (released_not is_backend) in Hin; [discriminate | reflexivity].
  - destruct Hin as [Hin | []]. discriminate.
  - destruct Hin as [Hin | [[= ->] | Hin]]; [discriminate | |].
    + rewrite Hthrow. simpl. auto.
    + apply in_app_or in Hin as [Hin | [Hin | []]]; [|discriminate].
      apply (released_not is_backend) in Hin; [discriminate | reflexivity].
Qed.

Lemma lock_pending self s :
  (∀ f h, (lock_code f h).2 = None) ->
  pending (final (lockNativeDevice self s)) = pending s.
Proof.
  intros Hquiet. pose proof (lockNativeDevice_run self s) as Hl.
  inversion Hl as [f Hf | Ha | r ob h k h' e -> Hob Hin Hz Hh Hc Hr]; simpl; try reflexivity.
  specialize (Hquiet (lock h) (set_object (nativeResource ob) h)).
  rewrite Hc in Hquiet. simpl in Hquiet. subst e. reflexivity.
Qed.

Lemma unlock_pending a s :
  (∀ f h, (unlock_code f h).2 = None) ->
  pending (final (unlockNativeDevice a s)) = pending s.
Proof.
  intros Hquiet.
  destruct (decide (a = 0)) as [-> | Ha]; [reflexivity|].
  destruct (heap s !! a) as [h|] eqn:Hh.
  - rewrite (unlockNativeDevice_run a h s Ha Hh). simpl. rewrite Hquiet. reflexivity.
  - unfold unlockNativeDevice. apply Z.eqb_neq in Ha. rewrite Ha. simpl.
    unfold call_unlock, load, mbind, M_bind, bind. rewrite Hh. reflexivity.
Qed.

(** X6: when neither the lock nor the unlock functions raise, an entry
    point whose fitz call returned raises nothing: the pending exception is
    what it was before the call. *)
Theorem success_raises_nothing self i s c t :
  (∀ f h, (lock_code f h).2 = None) -> (∀ f h, (unlock_code f h).2 = None) ->
  In (EvBackend c) (events (invoke self i s)) -> fitz c = fz_returns t ->
  pending (final (invoke self i s)) = pending s.
Proof.
  intros Hlq Huq Hin Hret. pose proof (invoke_runs self i s) as Hrun.
  inversion Hrun as [Hr | msg Hr | f Hr | ctx dev c' rel Hf Hl Hr | a k s1 Hk Hl Hr
                    | ctx dev c' rel a s1 s2 Hf Ha Hl Hu Hr];
    rewrite <- Hr in Hin; simpl in Hin; try contradiction.
  - destruct Hin as [[= ->] | Hin].
    + rewrite Hret. reflexivity.
    + apply (released_not is_backend) in Hin; [discriminate | reflexivity].
  - destruct Hin as [Hin | []]. discriminate.
  - assert (c' = c) as ->.
    { destruct Hin as [Hin | [[= ->] | Hin]]; [discriminate | reflexivity |].
      apply in_app_or in Hin as [Hin | [Hin | []]]; [|discriminate].
      apply (released_not is_backend) in Hin; [discriminate | reflexivity]. }
    rewrite Hret. simpl.
    pose proof (lock_pending self s Hlq) as Hp1. rewrite Hl in Hp1.
    pose proof (unlock_pending a s1 Huq) as Hp2. rewrite Hu in Hp2.
    simpl in *. congruence.
Qed.

(** ** What is handed to fitz *)

(** X7: every fitz call an entry point makes is made with the context of
    the thread and on the fitz device behind [self], and a clip call is
    given the infinite rectangle as its scissor. *)
Theorem fitz_call_on_own_device self i s c :
  In (EvBackend c) (events (invoke self i s)) ->
  get_context = Some (call_context c) ∧ from_Device self = Some (call_device c) ∧
  (∀ r, call_scissor c = Some r -> r = fz_infinite_rect).
Proof.
  intros Hin. pose proof (invoke_runs self i s) as Hrun.
  inversion Hrun as [Hr | msg Hr | f Hr | ctx dev c' rel Hf Hl Hr | a k s1 Hk Hl Hr
                    | ctx dev c' rel a s1 s2 Hf Ha Hl Hu Hr];
    rewrite <- Hr in Hin; simpl in Hin; try contradiction.
  - destruct Hin as [[= ->] | Hin].
    + destruct Hf as (Hctx & Hdev & <- & <- & Hsc & _). auto.
    + apply (released_not is_backend) in Hin; [discriminate | reflexivity].
  - destruct Hin as [Hin | []]. discriminate.
  - destruct Hin as [Hin | [[= ->] | Hin]]; [discriminate | |].
    + destruct Hf as (Hctx & Hdev & <- & <- & Hsc & _). auto.
    + apply in_app_or in Hin as [Hin | [Hin | []]]; [|discriminate].
      apply (released_not is_backend) in Hin; [discriminate | reflexivity].
Qed.


(** ** The name of a layer *)

(** X8: [ReleaseStringUTFChars] is called by [beginLayer] alone, once for
    each fitz call it makes and never without one, and on the very name
    that was handed to [fz_begin_layer]. *)
Theorem name_released_with_call self i s :
  count is_release (events (invoke self i s)) =
    match i with
    | beginLayer _ => count is_backend (events (invoke self i s))
    | _ => 0%nat
    end ∧
  ∀ j n, In (EvReleaseStringUTFChars j n) (events (invoke self i s)) ->
    i = beginLayer j ∧
    ∃ ctx dev, In (EvBackend (fz_begin_layer ctx dev n)) (events (invoke self i s)).
Proof.
  pose proof (invoke_runs self i s) as Hrun.
  inversion Hrun as [Hr | msg Hr | f Hr | ctx dev c rel Hf Hl Hr | a k s1 Hk Hl Hr
                    | ctx dev c rel a s1 s2 Hf Ha Hl Hu Hr]; simpl.
  1-3: split; [destruct i; reflexivity | intros j n []].
  2: split; [destruct i; reflexivity | intros j n [Hin | []]; discriminate].
  all: destruct Hf as (_ & _ & _ & _ & _ & Hrel).
  all: destruct i; try (subst rel; simpl; split;
         [reflexivity | intros j n Hin; repeat destruct Hin as [Hin | Hin];
                        try discriminate; contradiction]).
  all: destruct Hrel as (n0 & -> & ->); simpl; split; [reflexivity|].
  all: intros j n Hin; repeat destruct Hin as [Hin | Hin]; try discriminate;
    try contradiction; injection Hin as <- <-; split; [reflexivity|];
    exists ctx, dev; simpl; auto.
Qed.

(** ** The finalizer *)

(** X9: with a context and a handle allocated at the address in
    [nativeInfo], the finalizer runs the finalizer of the superclass, then
    drops the pixmap of the handle, then frees the handle; afterwards
    nothing is allocated there, every other handle is as the superclass
    left it, and the fields of the Java objects are too. *)
Theorem finalize_releases_once r s ctx ob h :
  get_context = Some ctx ->
  objects (Device_finalize (Some r) s) !! r = Some ob -> nativeInfo ob ≠ 0 ->
  heap (Device_finalize (Some r) s) !! nativeInfo ob = Some h ->
  outcome (NativeDevice_finalize (Some r) s) = Done tt ∧
  events (NativeDevice_finalize (Some r) s) =
    [EvDevice_finalize (Some r); EvDropPixmap (pixmap h); EvFree (nativeInfo ob)] ∧
  heap (final (NativeDevice_finalize (Some r) s)) !! nativeInfo ob = None ∧
  (∀ b, b ≠ nativeInfo ob ->
     heap (final (NativeDevice_finalize (Some r) s)) !! b
     = heap (Device_finalize (Some r) s) !! b) ∧
  objects (final (NativeDevice_finalize (Some r) s)) = objects (Device_finalize (Some r) s).
Proof.
  intros Hctx Hob Hz Hh. rewrite (finalize_releases r s ctx ob h Hctx Hob Hz Hh). simpl.
  split; [reflexivity|]. split; [reflexivity|].
  split; [apply lookup_delete_eq|]. split; [|reflexivity].
  intros b Hb. apply lookup_delete_ne. congruence.
Qed.



(** ** Sequences of calls *)

Lemma invoke_all_cons self i l s :
  invoke_all self (i :: l) s =
    match invoke self i s with
    | Run (Done v) s1 ev1 =>
        match invoke_all self l s1 with
        | Run (Done vs) s2 ev2 => Run (Done (v :: vs)) s2 (ev1 ++ ev2)
        | Run (Faulted f) s2 ev2 => Run (Faulted f) s2 (ev1 ++ ev2)
        end
    | Run (Faulted f) s1 ev1 => Run (Faulted f) s1 ev1
    end.
Proof.
  simpl. unfold mbind, M_bind, bind.
  destruct (invoke self i s) as [[v|f] s1 ev1]; [|reflexivity].
  destruct (invoke_all self l s1) as [[vs|f] s2 ev2]; simpl; rewrite ?app_nil_r; reflexivity.
Qed.

Lemma lock_balanced_released held rel l :
  lock_balanced held (released rel ++ l) = lock_balanced held l.
Proof. destruct rel as [[j n]|]; reflexivity. Qed.

(** The calls of one entry point leave nothing held, so what follows them
    is judged as if it came first. *)
Lemma lock_balanced_entry self i s l :
  lock_balanced None (events (invoke self i s) ++ l) = lock_balanced None l.
Proof.
  pose proof (invoke_runs self i s) as Hrun.
  inversion Hrun as [Hr | msg Hr | f Hr | ctx dev c rel Hf Hl Hr | a k s1 Hk Hl Hr
                    | ctx dev c rel a s1 s2 Hf Ha Hl Hu Hr]; simpl; try reflexivity.
  - apply lock_balanced_released.
  - apply Z.eqb_neq in Hk. rewrite Hk. reflexivity.
  - rewrite <- app_assoc, lock_balanced_released. simpl. rewrite Z.eqb_refl. reflexivity.
Qed.

(** X11: in the calls of any sequence of entry points on one device, from
    any state, a lock is taken only while none is held, every unlock
    releases the handle just locked, and nothing is held at the end. *)
Theorem calls_are_lock_balanced self l s :
  lock_balanced None (events (invoke_all self l s)) = true.
Proof.
  revert s. induction l as [|i l IH]; intros s; [reflexivity|].
  rewrite invoke_all_cons.
  pose proof (lock_balanced_entry self i s) as Hentry.
  destruct (invoke self i s) as [[v|f] s1 ev1]; simpl in *.
  - specialize (IH s1).
    destruct (invoke_all self l s1) as [[vs|f] s2 ev2]; simpl in *;
      rewrite Hentry; exact IH.
  - specialize (Hentry []). rewrite app_nil_r in Hentry. exact Hentry.
Qed.

(** ** The object of the handle *)

Lemma lock_called_state self s o s1 a k :
  lockNativeDevice self s = Run o s1 [EvLock a k] ->
  ∃ r ob h h' e,
    self = Some r ∧ objects s !! r = Some ob ∧ nativeInfo ob = a ∧ a ≠ 0 ∧
    heap s !! a = Some h ∧
    lock_code (lock h) (set_object (nativeResource ob) h) = (k, h', e) ∧
    heap s1 !! a = Some h'.
Proof.
  intros Hrun. pose proof (lockNativeDevice_run self s) as Hl. rewrite Hrun in Hl.
  inversion Hl as [| | r ob h k' h' e -> Hob Hin Hz Hh Hc Ho]; subst.
  exists r, ob, h, h', e. rewrite heap_raised. simpl. rewrite lookup_insert_eq. auto 10.
Qed.

(** X13: every lock call refreshes the object of the handle: with lock and
    unlock functions that leave the handle as they find it, after a call
    that locked, the handle of [self] is what it was before the call with
    the [nativeResource] of [self] as its object. *)
Theorem lock_refreshes_object self i s a k :
  (∀ f h, (lock_code f h).1.2 = h) -> (∀ f h, (unlock_code f h).1 = h) ->
  In (EvLock a k) (events (invoke self i s)) ->
  ∃ r ob h, self = Some r ∧ objects s !! r = Some ob ∧ nativeInfo ob = a ∧
            heap s !! a = Some h ∧
            heap (final (invoke self i s)) !! a = Some (set_object (nativeResource ob) h).
Proof.
  intros Hlk Hunlk Hin. pose proof (invoke_runs self i s) as Hrun.
  inversion Hrun as [Hr | msg Hr | f Hr | ctx dev c rel Hf Hl Hr | a' k' s1 Hk Hl Hr
                    | ctx dev c rel a' s1 s2 Hf Ha Hl Hu Hr];
    rewrite <- Hr in Hin; simpl in Hin; try contradiction.
  - destruct Hin as [Hin | Hin]; [discriminate|].
    apply (released_not is_lock) in Hin; [discriminate | reflexivity].
  - destruct Hin as [[= -> ->] | []].
    destruct (lock_called_state _ _ _ _ _ _ Hl)
      as (r & ob & h & h' & e & -> & Hob & Hinfo & _ & Hh & Hc & Hh').
    exists r, ob, h. simpl. repeat split; try assumption.
    specialize (Hlk (lock h) (set_object (nativeResource ob) h)).
    rewrite Hc in Hlk. simpl in Hlk. congruence.
  - assert (a' = a) as ->.
    { destruct Hin as [[= -> _] | [Hin | Hin]]; [reflexivity | discriminate |].
      apply in_app_or in Hin as [Hin | [Hin | []]]; [|discriminate].
      apply (released_not is_lock) in Hin; [discriminate | reflexivity]. }
    destruct (lock_called_state _ _ _ _ _ _ Hl)
      as (r & ob & h & h' & e & -> & Hob & Hinfo & _ & Hh & Hc & Hh').
    exists r, ob, h. simpl. repeat split; try assumption.
    specialize (Hlk (lock h) (set_object (nativeResource ob) h)).
    rewrite Hc in Hlk. simpl in Hlk. subst h'.
    rewrite heap_caught.
    pose proof (unlockNativeDevice_run a _ s1 Ha Hh') as Hu'. rewrite Hu in Hu'.
    injection Hu' as ->. rewrite heap_raised. simpl.
    rewrite lookup_insert_eq, Hunlk. reflexivity.
Qed.

(** ** The characters of the name *)

Lemma beginLayer_named_protocol self j chars s ctx dev :
  get_context = Some ctx -> from_Device self = Some dev ->
  GetStringUTFChars (Some j) = Some chars ->
  invoke self (beginLayer (Some j)) s =
    protocol self (beginLayer (Some j)) ctx (fz_begin_layer ctx dev (CChars chars))
      (Some (Some j, CChars chars)) s.
Proof.
  intros Hctx Hdev Hname. entry_unfold. rewrite Hctx, Hdev, Hname. protocol_same.
Qed.

(** X14: [beginLayer] with a name: when [GetStringUTFChars] fails, the
    entry point returns at once, calls nothing, not even the lock, and
    raises nothing itself; when it gives the characters, any fitz call made
    is [fz_begin_layer] with those characters, and they are released. *)
Theorem beginLayer_name_characters self j s :
  match GetStringUTFChars (Some j) with
  | None => invoke self (beginLayer (Some j)) s = Run (Done None) s []
  | Some chars =>
      ∀ c, In (EvBackend c) (events (invoke self (beginLayer (Some j)) s)) ->
           (∃ ctx dev, c = fz_begin_layer ctx dev (CChars chars)) ∧
           In (EvReleaseStringUTFChars (Some j) (CChars chars))
              (events (invoke self (beginLayer (Some j)) s))
  end.
Proof.
  destruct (GetStringUTFChars (Some j)) as [chars|] eqn:Hname.
  - intros c Hin.
    destruct get_context as [ctx|] eqn:Hctx;
      [|revert Hin; entry_unfold; rewrite Hctx; intros []].
    destruct (from_Device self) as [dev|] eqn:Hdev;
      [|revert Hin; entry_unfold; rewrite Hctx, Hdev; intros []].
    rewrite (beginLayer_named_protocol self j chars s ctx dev Hctx Hdev Hname) in *.
    pose proof (protocol_runs self (beginLayer (Some j)) ctx
                  (fz_begin_layer ctx dev (CChars chars)) (Some (Some j, CChars chars)) s)
      as Hrun.
    inversion Hrun as [f Hl Hr | Hl Hr | a k e s1 Hk Hl Hex Hp Hr | a s1 s2 Ha Hl Hu Hr];
      rewrite <- Hr in Hin; simpl in *.
    + contradiction.
    + destruct Hin as [[= <-] | [Hin | []]]; [|discriminate].
      split; [eauto | right; left; reflexivity].
    + destruct Hin as [Hin | []]. discriminate.
    + destruct Hin as [Hin | [[= <-] | [Hin | [Hin | []]]]]; try discriminate.
      split; [eauto | right; right; left; reflexivity].
  - unfold invoke, NativeDevice_beginLayer.
    destruct get_context as [ctx|]; [|reflexivity].
    destruct (from_Device self) as [dev|]; [|reflexivity].
    rewrite Hname. reflexivity.
Qed.

(** ** A lock that fails *)

Lemma lock_failed_state self s o s1 a k :
  lockNativeDevice self s = Run o s1 [EvLock a k] ->
  ∃ r ob h h' e,
    self = Some r ∧ objects s !! r = Some ob ∧ nativeInfo ob = a ∧
    heap s !! a = Some h ∧
    lock_code (lock h) (set_object (nativeResource ob) h) = (k, h', e) ∧
    pending s1 = match e with Some x => Some x | None => pending s end.
Proof.
  intros Hrun. pose proof (lockNativeDevice_run self s) as Hl. rewrite Hrun in Hl.
  inversion Hl as [| | r ob h k' h' e -> Hob Hin Hz Hh Hc Ho]; subst.
  exists r, ob, h, h', e. repeat split; try assumption. destruct e; reflexivity.
Qed.

(** C4, as the code has it: when the lock function of the handle returns
    non-zero, the entry point returns right after it: the lock call is the
    only call made, so fitz is not invoked and the unlock function is not
    called.  The entry point raises nothing of its own: the exception
    pending when it returns is the one that lock call raised, if it raised
    one, and otherwise the one that was pending before. *)
Theorem lock_failure_returns self i s a k :
  In (EvLock a k) (events (invoke self i s)) -> k ≠ 0 ->
  events (invoke self i s) = [EvLock a k] ∧
  count is_backend (events (invoke self i s)) = 0%nat ∧
  count is_unlock (events (invoke self i s)) = 0%nat ∧
  outcome (invoke self i s) = Done (no_result i) ∧
  ∃ r ob h h' e,
    self = Some r ∧ objects s !! r = Some ob ∧ nativeInfo ob = a ∧ heap s !! a = Some h ∧
    lock_code (lock h) (set_object (nativeResource ob) h) = (k, h', e) ∧
    pending (final (invoke self i s)) = match e with Some x => Some x | None => pending s end.
Proof.
  intros Hin Hk. pose proof (invoke_runs self i s) as Hrun.
  inversion Hrun as [Hr | msg Hr | f Hr | ctx dev c rel Hf Hl Hr | a' k' s1 Hk' Hl Hr
                    | ctx dev c rel a' s1 s2 Hf Ha Hl Hu Hr];
    rewrite <- Hr in Hin; simpl in Hin; try contradiction.
  - destruct Hin as [Hin | Hin]; [discriminate|].
    apply (released_not is_lock) in Hin; [discriminate | reflexivity].
  - destruct Hin as [[= -> ->] | []]. simpl.
    do 4 (split; [reflexivity|]).
    exact (lock_failed_state _ _ _ _ _ _ Hl).
  - exfalso. destruct Hin as [[= _ <-] | [Hin | Hin]]; [congruence | discriminate |].
    apply in_app_or in Hin as [Hin | [Hin | []]]; [|discriminate].
    apply (released_not is_lock) in Hin; [discriminate | reflexivity].
Qed.

(** ** A device without a handle *)

(** The checks of an entry point pass: the device is not stale, no
    required argument is missing, [from_jfloatArray] accepts the color
    array of an entry point that takes one, and the characters of a name
    given to [beginLayer] can be read. *)
Definition checks_pass (self : jobject) (i : invocation) (s : JVM) : Prop :=
  ∃ ctx dev,
    get_context = Some ctx ∧ from_Device self = Some dev ∧
    missing_arguments i = [] ∧
    match color_argument i with
    | Some (jcs, jcolor) =>
        ∃ ok color,
          outcome (@from_jfloatArray fz_matrix fz_rect fz_color_params
                     (expected_channels ctx jcs) jcolor s) = Done (ok, color) ∧
          ok ≠ 0
    | None => True
    end ∧
    match i with
    | beginLayer (Some j) => is_Some (GetStringUTFChars (Some j))
    | _ => True
    end.

Lemma checked_protocol self i s :
  checks_pass self i s ->
  ∃ ctx dev c rel, call_facts self i ctx dev c rel ∧
                   invoke self i s = protocol self i ctx c rel s.
Proof.
  intros (ctx & dev & Hctx & Hdev & Hchecks). exists ctx, dev. revert Hchecks.
  destruct i; simpl; unfold expected_channels; entry_unfold; rewrite Hctx, Hdev.
  all: repeat match goal with
    | |- context [match ?x with Some _ => _ | None => _ end] =>
        lazymatch x with
        | context [match _ with _ => _ end] => fail
        | _ => destruct x eqn:?
        end
    | |- context [if decide ?P then _ else _] => destruct (decide P)
    end.
  all: intros (Hmiss & Hcol & Hname); simpl in Hmiss; try discriminate Hmiss.
  all: try (destruct Hcol as (ok & color & Hrun & Hok); simpl in Hrun;
            injection Hrun as <- _; congruence).
  all: try match type of Hname with
    | is_Some None => destruct Hname as [? Hname]; discriminate Hname
    end.
  all: pick_call; split; [|protocol_same].
  all: unfold call_facts; rewrite ?Hctx, ?Hdev; simpl; repeat split; eauto.
  all: intros r [= <-]; reflexivity.
Qed.

(** C7: on a device without a handle no entry point calls a lock or an
    unlock function, and [lockNativeDevice] reports no error.  An entry
    point whose checks pass makes its fitz call, with the context of the
    thread and on the device of [self], and nothing else: its value and
    the exception it leaves pending are those of the fitz call.  In any
    case the entry point either stops in its own checks, before any call,
    or makes the fitz call alone. *)
Theorem no_handle_no_locking self i s :
  no_handle self s ->
  count is_lock (events (invoke self i s)) = 0%nat ∧
  count is_unlock (events (invoke self i s)) = 0%nat ∧
  lockNativeDevice self s = Run (Done (0, 0)) s [] ∧
  (checks_pass self i s ->
     ∃ c rel,
       get_context = Some (call_context c) ∧ from_Device self = Some (call_device c) ∧
       events (invoke self i s) = EvBackend c :: released rel ∧
       outcome (invoke self i s) = Done (result_of i (fitz c)) ∧
       final (invoke self i s) = caught (fitz c) s) ∧
  ((events (invoke self i s) = [] ∧ outcome (invoke self i s) = Done (no_result i) ∧
    (final (invoke self i s) = s ∨
     ∃ msg, final (invoke self i s) = set_pending (Some (InvalidArgument msg)) s))
   ∨ ∃ c rel,
       events (invoke self i s) = EvBackend c :: released rel ∧
       outcome (invoke self i s) = Done (result_of i (fitz c)) ∧
       final (invoke self i s) = caught (fitz c) s).
Proof.
  intros Hno. pose proof (lockNativeDevice_no_handle self s Hno) as Hlock.
  assert (∀ ctx c rel,
            protocol self i ctx c rel s =
            Run (Done (result_of i (fitz c))) (caught (fitz c) s) (EvBackend c :: released rel))
    as Hprot.
  { intros ctx c rel. pose proof (protocol_runs self i ctx c rel s) as Hrun.
    inversion Hrun as [f Hl Hr | Hl Hr | a k e s1 Hk Hl Hex Hp Hr | a s1 s2 Ha Hl Hu Hr];
      try (rewrite Hlock in Hl; discriminate Hl).
    reflexivity. }
  pose proof (invoke_runs self i s) as Hrun.
  assert (count is_lock (events (invoke self i s)) = 0%nat ∧
          count is_unlock (events (invoke self i s)) = 0%nat ∧
          ((events (invoke self i s) = [] ∧ outcome (invoke self i s) = Done (no_result i) ∧
            (final (invoke self i s) = s ∨
             ∃ msg, final (invoke self i s) = set_pending (Some (InvalidArgument msg)) s))
           ∨ ∃ c rel,
               events (invoke self i s) = EvBackend c :: released rel ∧
               outcome (invoke self i s) = Done (result_of i (fitz c)) ∧
               final (invoke self i s) = caught (fitz c) s)) as (Hnl & Hnu & Hshape).
  { destruct (invoke_cases self i s) as [E | [(msg & E) | (ctx & dev & c & rel & _ & _ & E)]];
      rewrite E; [| |rewrite Hprot]; simpl.
    - do 2 (split; [reflexivity|]). left. repeat split. left. reflexivity.
    - do 2 (split; [reflexivity|]). left. repeat split. right. eauto.
    - split; [apply (count_released is_lock); reflexivity|].
      split; [apply (count_released is_unlock); reflexivity|].
      right. exists c, rel. repeat split. }
  do 3 (split; [assumption|]). split; [|assumption].
  intros Hpass.
  destruct (checked_protocol self i s Hpass) as (ctx & dev & c & rel & Hfacts & E).
  destruct Hfacts as (Hctx & Hdev & <- & <- & _).
  exists c, rel. rewrite E, Hprot. simpl. repeat split; assumption.
Qed.

End Coverage.

(** ** Instances on the test doubles *)

(** The live device, but [GetStringUTFChars] finds no memory for the name. *)
Definition out_of_memory : @Externals unit unit unit := {|
  get_context := get_context (Externals:=live_device);
  from_Device := from_Device (Externals:=live_device);
  from_Path := from_Path (Externals:=live_device);
  from_Text := from_Text (Externals:=live_device);
  from_StrokeState := from_StrokeState (Externals:=live_device);
  from_ColorSpace := from_ColorSpace (Externals:=live_device);
  from_Shade := from_Shade (Externals:=live_device);
  from_Image := from_Image (Externals:=live_device);
  from_Matrix := from_Matrix (Externals:=live_device);
  from_Rect := from_Rect (Externals:=live_device);
  from_ColorParams_safe := from_ColorParams_safe (Externals:=live_device);
  fz_colorspace_n := fz_colorspace_n (Externals:=live_device);
  FZ_MAX_COLORS := FZ_MAX_COLORS (Externals:=live_device);
  fz_infinite_rect := fz_infinite_rect (Externals:=live_device);
  GetStringUTFChars := fun _ => None;
  lock_code := lock_code (Externals:=live_device);
  unlock_code := unlock_code (Externals:=live_device);
  fitz := fitz (Externals:=live_device);
  Device_finalize := Device_finalize (Externals:=live_device)
|}.

(** The fitz call of [good_fill]. *)
Definition good_fill_call : @backend_call unit unit unit :=
  fz_fill_path ctx0 dev0 (NativePtr 3) false tt (Some (NativePtr 4)) [0.5%float] 1%float tt.

Definition draw_object : JavaObject :=
  {| instanceof_NativeDevice := true; nativeInfo := 100; nativeResource := Some 5%positive |}.

Lemma lockNativeDevice_result_witness :
  outcome (lockNativeDevice (H:=live_device) self0 draw_device) = Done (100, 0) ∧
  events (lockNativeDevice (H:=live_device) self0 draw_device) = [EvLock 100 0].
Proof.
  split; [reflexivity|].
  destruct (lockNativeDevice_result (H:=live_device) self0 draw_device 100 0 eq_refl)
    as [(Hz & _) | [(Hz & _) | (_ & _ & Hev & _)]]; [discriminate Hz | discriminate Hz | exact Hev].
Defined.

Lemma unlock_after_lock_witness :
  outcome (lockNativeDevice (H:=live_device) self0 draw_device) = Done (100, 0) ∧ 100 ≠ 0 ∧
  events (unlockNativeDevice (H:=live_device) 100
            (final (lockNativeDevice (H:=live_device) self0 draw_device))) = [EvUnlock 100].
Proof.
  split; [reflexivity|]. split; [discriminate|].
  apply (unlock_after_lock (H:=live_device) self0 draw_device 100); [reflexivity | discriminate].
Defined.

Lemma backend_error_surfaced_witness :
  In (EvBackend good_fill_call)
     (events (invoke (H:=failing_backend) self0 good_fill draw_device)) ∧
  pending (final (invoke (H:=failing_backend) self0 good_fill draw_device))
  = Some (BackendFailure {| fz_caught := 2; fz_caught_message := "malformed path" |}).
Proof.
  split; [vm_compute; right; left; reflexivity|].
  apply (backend_error_surfaced (H:=failing_backend) self0 good_fill draw_device good_fill_call);
    [vm_compute; right; left; reflexivity | reflexivity].
Defined.

Lemma success_raises_nothing_witness :
  (∀ f h, (lock_code (Externals:=live_device) f h).2 = None) ∧
  (∀ f h, (unlock_code (Externals:=live_device) f h).2 = None) ∧
  In (EvBackend good_fill_call) (events (invoke (H:=live_device) self0 good_fill draw_device)) ∧
  pending (final (invoke (H:=live_device) self0 good_fill draw_device)) = None.
Proof.
  split; [reflexivity|]. split; [reflexivity|].
  split; [vm_compute; right; left; reflexivity|].
  apply (success_raises_nothing (H:=live_device) self0 good_fill draw_device good_fill_call 7);
    [reflexivity | reflexivity | vm_compute; right; left; reflexivity | reflexivity].
Defined.

Lemma fitz_call_on_own_device_witness :
  In (EvBackend good_fill_call) (events (invoke (H:=live_device) self0 good_fill draw_device)) ∧
  from_Device (Externals:=live_device) self0 = Some (call_device good_fill_call).
Proof.
  split; [vm_compute; right; left; reflexivity|].
  apply (fitz_call_on_own_device (H:=live_device) self0 good_fill draw_device good_fill_call).
  vm_compute. right. left. reflexivity.
Defined.

Lemma finalize_releases_once_witness :
  heap (Device_finalize (Externals:=live_device) self0 draw_device) !! 100 = Some handle0 ∧
  events (NativeDevice_finalize (H:=live_device) self0 draw_device) =
    [EvDevice_finalize self0; EvDropPixmap (Some (NativePtr 9)); EvFree 100] ∧
  heap (final (NativeDevice_finalize (H:=live_device) self0 draw_device)) !! 100 = None.
Proof.
  split; [reflexivity|].
  destruct (finalize_releases_once (H:=live_device) 1%positive draw_device ctx0 draw_object
              handle0 eq_refl eq_refl ltac:(discriminate) eq_refl)
    as (_ & Hev & Hfree & _).
  split; [exact Hev | exact Hfree].
Defined.


Lemma lock_refreshes_object_witness :
  In (EvLock 100 0) (events (invoke (H:=live_device) self0 good_fill draw_device)) ∧
  ∃ r ob h, self0 = Some r ∧ objects draw_device !! r = Some ob ∧ nativeInfo ob = 100 ∧
            heap draw_device !! 100 = Some h ∧
            heap (final (invoke (H:=live_device) self0 good_fill draw_device)) !! 100
            = Some (set_object (nativeResource ob) h).
Proof.
  split; [vm_compute; left; reflexivity|].
  apply (lock_refreshes_object (H:=live_device) self0 good_fill draw_device 100 0);
    [reflexivity | reflexivity | vm_compute; left; reflexivity].
Defined.

Example beginLayer_out_of_memory :
  invoke (H:=out_of_memory) self0 (beginLayer (Some 8%positive)) draw_device
  = Run (Done None) draw_device [].
Proof. reflexivity. Qed.

(** The sequence of the dispatcher scenario on the draw device, with a
    backend that always fails: three locks, each released. *)
Example calls_on_failing_backend :
  events (invoke_all (H:=failing_backend) self0 [good_fill; popClip; close] draw_device)
  = [EvLock 100 0; EvBackend good_fill_call; EvUnlock 100;
     EvLock 100 0; EvBackend (fz_pop_clip ctx0 dev0); EvUnlock 100;
     EvLock 100 0; EvBackend (fz_close_device ctx0 dev0); EvUnlock 100].
Proof. vm_compute. reflexivity. Qed.

(** ** A lock that fails in silence *)

(** The live device, but its lock function returns 1 and raises nothing. *)
Definition silent_failing_lock : @Externals unit unit unit := {|
  get_context := get_context (Externals:=live_device);
  from_Device := from_Device (Externals:=live_device);
  from_Path := from_Path (Externals:=live_device);
  from_Text := from_Text (Externals:=live_device);
  from_StrokeState := from_StrokeState (Externals:=live_device);
  from_ColorSpace := from_ColorSpace (Externals:=live_device);
  from_Shade := from_Shade (Externals:=live_device);
  from_Image := from_Image (Externals:=live_device);
  from_Matrix := from_Matrix (Externals:=live_device);
  from_Rect := from_Rect (Externals:=live_device);
  from_ColorParams_safe := from_ColorParams_safe (Externals:=live_device);
  fz_colorspace_n := fz_colorspace_n (Externals:=live_device);
  FZ_MAX_COLORS := FZ_MAX_COLORS (Externals:=live_device);
  fz_infinite_rect := fz_infinite_rect (Externals:=live_device);
  GetStringUTFChars := GetStringUTFChars (Externals:=live_device);
  lock_code := fun _ h => (1, h, None);
  unlock_code := unlock_code (Externals:=live_device);
  fitz := fitz (Externals:=live_device);
  Device_finalize := Device_finalize (Externals:=live_device)
|}.

(** C4 as stated fails when the lock function fails without raising: the
    entry point returns with no error pending, so with no [LockFailure]. *)
Lemma silent_lock_failure :
  In (EvLock 100 1)
     (events (invoke (H:=silent_failing_lock) self0 good_fill draw_device)) ∧
  pending (final (invoke (H:=silent_failing_lock) self0 good_fill draw_device)) = None ∧
  ¬ ∃ msg,
      pending (final (invoke (H:=silent_failing_lock) self0 good_fill draw_device))
      = Some (LockFailure msg).
Proof.
  split; [vm_compute; left; reflexivity|]. split; [reflexivity|].
  intros (msg & Hp). vm_compute in Hp. discriminate.
Qed.

Lemma lock_failure_returns_witness :
  In (EvLock 100 1) (events (invoke (H:=failing_lock) self0 good_fill draw_device)) ∧
  1 ≠ 0 ∧
  events (invoke (H:=failing_lock) self0 good_fill draw_device) = [EvLock 100 1] ∧
  pending (final (invoke (H:=failing_lock) self0 good_fill draw_device))
  = Some (LockFailure "lock failed").
Proof.
  split; [vm_compute; left; reflexivity|]. split; [discriminate|].
  destruct (lock_failure_returns (H:=failing_lock) self0 good_fill draw_device 100 1)
    as (Hev & _); [vm_compute; left; reflexivity | discriminate |].
  split; [exact Hev | reflexivity].
Defined.

Lemma good_fill_checks_pass : checks_pass (H:=failing_backend) self0 good_fill list_device.
Proof.
  exists ctx0, dev0. do 3 (split; [reflexivity|]). split; [|exact I].
  exists 1, [0.5%float]. split; [reflexivity | discriminate].
Defined.

Lemma no_handle_no_locking_witness :
  no_handle self0 list_device ∧
  checks_pass (H:=failing_backend) self0 good_fill list_device ∧
  events (invoke (H:=failing_backend) self0 good_fill list_device) = [EvBackend good_fill_call] ∧
  count is_lock (events (invoke (H:=failing_backend) self0 good_fill list_device)) = 0%nat ∧
  ∃ c rel,
    events (invoke (H:=failing_backend) self0 good_fill list_device)
      = EvBackend c :: released rel ∧
    outcome (invoke (H:=failing_backend) self0 good_fill list_device)
      = Done (result_of good_fill (fitz (Externals:=failing_backend) c)).
Proof.
  split; [exact list_device_no_handle|]. split; [exact good_fill_checks_pass|].
  split; [reflexivity|].
  destruct (no_handle_no_locking (H:=failing_backend) self0 good_fill list_device
              list_device_no_handle) as (Hnl & _ & _ & Hcall & _).
  split; [exact Hnl|].
  destruct (Hcall good_fill_checks_pass) as (c & rel & _ & _ & Hev & Hout & _).
  exists c, rel. split; [exact Hev | exact Hout].
Defined.
